(** * jstests/multiVersion/global_snapshot_reads_upgrade_cluster.js

    A shallow embedding of the upgrade test script.  The script talks to a
    sharded cluster it does not implement, so every call that leaves the
    script (starting servers, running commands, upgrading node groups) is an
    event: the model appends it to a trace together with the answer the
    outside world gave, and the world is an arbitrary function of the history
    so far.  The script's own state is the [txnNumber] counter.  A failed
    assertion is a JavaScript exception that nothing catches: the run ends
    there, with the trace and the counter as they were at that moment.

    The [load] calls and the [TestData] flag at the top of the file have no
    effect on what the script sends or checks and are left out. *)

From Stdlib Require Import ZArith List String Bool Lia Sorted.
Import ListNotations.
Open Scope string_scope.
Open Scope Z_scope.
Open Scope list_scope.

(** ** JavaScript values the script builds *)

#[warnings="-register-all"]
Inductive JSValue : Type :=
| JSUndefined
| JSBool (b : bool)
| JSNumber (n : Z)
| JSString (s : string)
| NumberLong (n : Z)
| JSArray (items : list JSValue)
| JSObject (fields : list (string * JSValue)).

(** Property read [o.k]; [undefined] when absent or when [o] is no object. *)
Fixpoint lookup_field (k : string) (fields : list (string * JSValue)) : JSValue :=
  match fields with
  | [] => JSUndefined
  | (k', v) :: rest => if String.eqb k k' then v else lookup_field k rest
  end.

Definition get_field (k : string) (o : JSValue) : JSValue :=
  match o with
  | JSObject fields => lookup_field k fields
  | _ => JSUndefined
  end.

Definition has_field (k : string) (o : JSValue) : bool :=
  match o with
  | JSObject fields => existsb (fun kv => String.eqb k (fst kv)) fields
  | _ => false
  end.

Definition is_true (v : JSValue) : bool :=
  match v with JSBool true => true | _ => false end.

Definition is_string (s : string) (v : JSValue) : bool :=
  match v with JSString s' => String.eqb s s' | _ => false end.

(** ** Handles and answers of the outside world *)

(** A connection to a server process ([conn], [st.s0], [st.s1]). *)
Inductive Conn : Type := MkConn (id : nat).

(** A session returned by [conn.startSession]. *)
Inductive Session : Type := MkSession (id : nat).

(** A database object: [conn.getDB(name)] or [session.getDatabase(name)]. *)
Inductive Database : Type :=
| ConnDb (c : Conn) (name : string)
| SessionDb (s : Session) (name : string).

(** The object [new ShardingTest(...)] returns, restricted to the members
    the script reads. *)
Record ShardingTest : Type := {
  st_s : Conn;
  st_s0 : Conn;
  st_s1 : Conn;
  st_shard0_shardName : string;
  st_shard1_shardName : string
}.

(** Modelled from the spec: the reply of the command-execution interface,
    [{ok: bool, code: optional ErrorCode, ...}]; its declaration lives in
    the shell, outside this file. *)
Record Response : Type := {
  ok : bool;
  code : option Z
}.

(** ** Events: one per call that leaves the script, with its answer *)

Inductive Event : Type :=
| EvRunMongod (c : Conn)
| EvSupportsSnapshotReadConcern (db : Database) (answer : bool)
| EvStopMongod (c : Conn)
| EvLog (text : string)
| EvShardingTest (params : JSValue) (st : ShardingTest)
| EvEnsurePrimaryShard (dbName shardName : string)
| EvInsert (db : Database) (coll : string) (docs : JSValue)
| EvStartSession (c : Conn) (options : JSValue) (s : Session)
| EvRunCommand (db : Database) (cmdObj : JSValue) (res : Response)
| EvUpgradeCluster (binVersion : string) (options : JSValue)
| EvGetPrimary (c : Conn)
| EvGetFCV (db : Database) (version : string)
| EvStop.

(** The world answers from the history of the run so far. *)
Record World : Type := {
  w_runMongod : list Event -> Conn;
  w_supportsSnapshotReadConcern : list Event -> Database -> bool;
  w_ShardingTest : list Event -> JSValue -> ShardingTest;
  w_startSession : list Event -> Conn -> JSValue -> Session;
  w_runCommand : list Event -> Database -> JSValue -> Response;
  w_getPrimary : list Event -> Conn;
  w_getFCV : list Event -> Database -> string
}.

(** ** The monad of the script: counter, trace, exceptions *)

Record St : Type := {
  txnNumber : Z;
  trace : list Event
}.

Definition init : St := {| txnNumber := 0; trace := [] |}.

(** How a piece of the script ends: it returns, or an assertion threw with
    the message the script passed to it ([None] when it passed none). *)
Inductive Outcome (A : Type) : Type :=
| Returned (a : A)
| Threw (msg : option string).
Arguments Returned {A} a.
Arguments Threw {A} msg.

Definition M (A : Type) : Type := World -> St -> Outcome A * St.

Definition ret {A : Type} (a : A) : M A := fun _ s => (Returned a, s).

Definition bind {A B : Type} (m : M A) (f : A -> M B) : M B :=
  fun w s =>
    match m w s with
    | (Returned a, s') => f a w s'
    | (Threw msg, s') => (Threw msg, s')
    end.

Notation "x <- m ;; k" := (bind m (fun x => k))
  (at level 61, m at next level, right associativity).
Notation "m ;; k" := (bind m (fun _ => k))
  (at level 61, right associativity).

(** An external call: ask the world, log the call with its answer. *)
Definition call {A : Type} (answer : World -> list Event -> A) (ev : A -> Event) : M A :=
  fun w s =>
    let a := answer w (trace s) in
    (Returned a, {| txnNumber := txnNumber s; trace := trace s ++ [ev a] |}).

Definition doassert {A : Type} (msg : option string) : M A :=
  fun _ s => (Threw msg, s).

(** [let txnNumber = 0] *)
Definition let_txnNumber (n : Z) : M unit :=
  fun _ s => (Returned tt, {| txnNumber := n; trace := trace s |}).

(** [txnNumber++]: yields the old value.  The counter stays far below 2^53,
    where JavaScript numbers stop being exact. *)
Definition txnNumber_postincr : M Z :=
  fun _ s => (Returned (txnNumber s), {| txnNumber := txnNumber s + 1; trace := trace s |}).

(** ** The shell's interface, as the script uses it *)

Definition MongoRunner_runMongod : M Conn :=
  call (fun w h => w_runMongod w h) EvRunMongod.

Definition MongoRunner_stopMongod (c : Conn) : M unit :=
  call (fun _ _ => tt) (fun _ => EvStopMongod c).

(** [db.serverStatus().storageEngine.supportsSnapshotReadConcern] *)
Definition serverStatus_supportsSnapshotReadConcern (db : Database) : M bool :=
  call (fun w h => w_supportsSnapshotReadConcern w h db) (EvSupportsSnapshotReadConcern db).

Definition jsTestLog (text : string) : M unit :=
  call (fun _ _ => tt) (fun _ => EvLog text).

(** [jsTest.log] prints like [jsTestLog]. *)
Definition jsTest_log (text : string) : M unit := jsTestLog text.

Definition new_ShardingTest (params : JSValue) : M ShardingTest :=
  call (fun w h => w_ShardingTest w h params) (EvShardingTest params).

Definition runCommand (db : Database) (cmdObj : JSValue) : M Response :=
  call (fun w h => w_runCommand w h db cmdObj) (EvRunCommand db cmdObj).

(** [conn.adminCommand(cmd)] is [conn.getDB("admin").runCommand(cmd)]. *)
Definition adminCommand (c : Conn) (cmdObj : JSValue) : M Response :=
  runCommand (ConnDb c "admin") cmdObj.

Definition ensurePrimaryShard (dbName shardName : string) : M unit :=
  call (fun _ _ => tt) (fun _ => EvEnsurePrimaryShard dbName shardName).

Definition insert (db : Database) (coll : string) (docs : JSValue) : M unit :=
  call (fun _ _ => tt) (fun _ => EvInsert db coll docs).

Definition startSession (c : Conn) (options : JSValue) : M Session :=
  call (fun w h => w_startSession w h c options) (EvStartSession c options).

Definition getDatabase (s : Session) (name : string) : Database := SessionDb s name.

Definition upgradeCluster (binVersion : string) (options : JSValue) : M unit :=
  call (fun _ _ => tt) (fun _ => EvUpgradeCluster binVersion options).

Definition configRS_getPrimary : M Conn :=
  call (fun w h => w_getPrimary w h) EvGetPrimary.

Definition st_stop : M unit :=
  call (fun _ _ => tt) (fun _ => EvStop).

Definition code_eqb (a b : option Z) : bool :=
  match a, b with
  | Some x, Some y => Z.eqb x y
  | None, None => true
  | _, _ => false
  end.

(** Modelled from the spec: [assert.eq] of the shell's assertion library
    (not part of this file).  Equal values pass; anything else is fatal. *)
Definition assert_eq (a b : option Z) (msg : option string) : M unit :=
  if code_eqb a b then ret tt else doassert msg.

(** Modelled from the spec: [assert.commandWorked] (shell assertion library):
    the reply must report success; anything else is fatal. *)
Definition assert_commandWorked (res : Response) (msg : option string) : M unit :=
  if ok res then ret tt else doassert msg.

(** Modelled from the spec: [assert.commandFailedWithCode] (shell assertion
    library): "the command must fail with exactly expectedErrorCode; any
    other outcome (including success) is a test failure". *)
Definition assert_commandFailedWithCode (res : Response) (expectedCode : option Z)
    (msg : option string) : M unit :=
  if negb (ok res) && code_eqb (code res) expectedCode then ret tt else doassert msg.

(** Modelled from the spec: [checkFCV] of
    jstests/libs/feature_compatibility_version.js (not part of this file):
    reads the compatibility-version marker through the given database and
    requires it to be the given version. *)
Definition checkFCV (adminDB : Database) (version : string) : M unit :=
  marker <- call (fun w h => w_getFCV w h adminDB) (EvGetFCV adminDB) ;;
  if String.eqb marker version then ret tt else doassert None.

(** An error code or [undefined], as a JavaScript value. *)
Definition js_of_code (c : option Z) : JSValue :=
  match c with Some n => JSNumber n | None => JSUndefined end.

(** ** Reading a trace: which node groups run the new binaries *)

Record Cluster : Type := {
  configsUpgraded : bool;
  shardsUpgraded : bool;
  mongosUpgraded : bool;
  fcvBumped : bool
}.

Definition lastStableCluster : Cluster :=
  {| configsUpgraded := false; shardsUpgraded := false;
     mongosUpgraded := false; fcvBumped := false |}.

(** A command carrying snapshot read concern. *)
Definition snapshot_tagged (cmdObj : JSValue) : bool :=
  is_string "snapshot" (get_field "level" (get_field "readConcern" cmdObj)).

(** The effect of one event on the cluster: an upgrade call moves the node
    groups it names to the latest binaries; a successful
    [setFeatureCompatibilityVersion] bumps the compatibility marker. *)
Definition cluster_step (c : Cluster) (e : Event) : Cluster :=
  match e with
  | EvUpgradeCluster binVersion options =>
      if String.eqb binVersion "latest" then
        {| configsUpgraded := configsUpgraded c || is_true (get_field "upgradeConfigs" options);
           shardsUpgraded := shardsUpgraded c || is_true (get_field "upgradeShards" options);
           mongosUpgraded := mongosUpgraded c || is_true (get_field "upgradeMongos" options);
           fcvBumped := fcvBumped c |}
      else c
  | EvRunCommand _ cmdObj res =>
      if has_field "setFeatureCompatibilityVersion" cmdObj && ok res then
        {| configsUpgraded := configsUpgraded c; shardsUpgraded := shardsUpgraded c;
           mongosUpgraded := mongosUpgraded c; fcvBumped := true |}
      else c
  | _ => c
  end.

Definition cluster_after (t : list Event) : Cluster :=
  fold_left cluster_step t lastStableCluster.

(** The states of the upgrade, in the order the script goes through them. *)
Inductive Phase : Type :=
| OldVersion
| ConfigsUpgraded
| ShardsUpgraded
| RoutersUpgraded
| CompatibilityBumped.

Definition phase_of (c : Cluster) : option Phase :=
  match configsUpgraded c, shardsUpgraded c, mongosUpgraded c, fcvBumped c with
  | false, false, false, false => Some OldVersion
  | true, false, false, false => Some ConfigsUpgraded
  | true, true, false, false => Some ShardsUpgraded
  | true, true, true, false => Some RoutersUpgraded
  | true, true, true, true => Some CompatibilityBumped
  | _, _, _, _ => None
  end.

Definition phase_at (t : list Event) : option Phase := phase_of (cluster_after t).

(** The transaction number a command event carries, if any. *)
Definition txn_of (e : Event) : option Z :=
  match e with
  | EvRunCommand _ cmdObj _ =>
      match get_field "txnNumber" cmdObj with
      | NumberLong n => Some n
      | _ => None
      end
  | _ => None
  end.

Fixpoint txn_ids (t : list Event) : list Z :=
  match t with
  | [] => []
  | e :: t' =>
      match txn_of e with
      | Some n => n :: txn_ids t'
      | None => txn_ids t'
      end
  end.

(** The counter values [0, 1, ..., k-1]. *)
Definition counting (k : nat) : list Z := map Z.of_nat (seq 0 k).

(** ** Sample worlds *)

Definition sampleCluster : ShardingTest :=
  {| st_s := MkConn 1; st_s0 := MkConn 1; st_s1 := MkConn 2;
     st_shard0_shardName := "shard-rs0"; st_shard1_shardName := "shard-rs1" |}.

(** A world with fixed handles, whose replies and marker are given. *)
Definition sampleWorld (supports : bool)
    (reply : list Event -> JSValue -> Response)
    (marker : list Event -> string) : World :=
  {| w_runMongod := fun _ => MkConn 0;
     w_supportsSnapshotReadConcern := fun _ _ => supports;
     w_ShardingTest := fun _ _ => sampleCluster;
     w_startSession := fun h _ _ => MkSession (List.length h);
     w_runCommand := fun h _ cmdObj => reply h cmdObj;
     w_getPrimary := fun _ => MkConn 3;
     w_getFCV := fun h _ => marker h |}.

Definition replyOk : Response := {| ok := true; code := None |}.
Definition replyError (c : Z) : Response := {| ok := false; code := Some c |}.

(** A cluster that behaves as the script hopes, with the error codes 9, 72
    and 239 and the markers "3.6" and "4.0". *)
Definition upgradingReply (h : list Event) (cmdObj : JSValue) : Response :=
  if snapshot_tagged cmdObj then
    match phase_at h with
    | Some OldVersion | Some ConfigsUpgraded => replyError 9
    | Some ShardsUpgraded => replyError 72
    | _ => replyOk
    end
  else replyOk.

Definition upgradingMarker (h : list Event) : string :=
  if fcvBumped (cluster_after h) then "4.0" else "3.6".

Definition upgradingWorld : World := sampleWorld true upgradingReply upgradingMarker.

(** The same cluster on a storage engine without snapshot read concern. *)
Definition unsupportingWorld : World := sampleWorld false upgradingReply upgradingMarker.

(** A cluster that accepts every command from the start. *)
Definition acceptingWorld : World := sampleWorld true (fun _ _ => replyOk) upgradingMarker.

(** A cluster that refuses every command. *)
Definition refusingWorld : World := sampleWorld true (fun _ _ => replyError 1) upgradingMarker.

(** A printer standing in for the shell's [tojson]: it names a find command
    by its collection and transaction number. *)
Definition sampleTojson (v : JSValue) : string :=
  match get_field "find" v, get_field "txnNumber" v with
  | JSString coll, NumberLong n =>
      ("{find: " ++ coll ++ ", txnNumber: " ++ (if Z.eqb n 0 then "0" else "n") ++ "}")%string
  | _, _ => "{}"
  end.

(** ** The script *)

Section Script.

(** The shell's [ErrorCodes] table: the three entries the script names. *)
Variables FailedToParse InvalidOptions SnapshotTooOld : Z.

(** The shell's [tojson] printer. *)
Variable tojson : JSValue -> string.

(** [lastStableFCV] and [latestFCV] of
    jstests/libs/feature_compatibility_version.js. *)
Variables lastStableFCV latestFCV : string.

(** Runs the given command on the given database, asserting the command
    failed or succeeded depending on the value of [expectSuccess]. *)
Definition runCommandAndVerifyResponse (sessionDb : Database) (cmdObj : JSValue)
    (expectSuccess : bool) (expectedCode : option Z) : M unit :=
  res <- runCommand sessionDb cmdObj ;;
  if expectSuccess then
    if negb (ok res) then
      assert_eq (Some SnapshotTooOld) (code res)
                (Some ("unexpected error code, cmd: " ++ tojson cmdObj)%string)
    else
      assert_commandWorked res
                (Some ("expected command to succeed, cmd: " ++ tojson cmdObj)%string)
  else
    assert_commandFailedWithCode res expectedCode
                (Some ("command did not fail with expected error code, cmd: " ++
                       tojson cmdObj ++ ", expectedCode: " ++
                       tojson (js_of_code expectedCode))%string).

Definition snapshotReadConcern : JSValue :=
  JSObject [("level", JSString "snapshot")].

(** The three command objects of a battery, for a given counter value. *)
Definition findUnsharded (n : Z) : JSValue :=
  JSObject [("find", JSString "unsharded");
            ("readConcern", snapshotReadConcern);
            ("txnNumber", NumberLong n)].

Definition findShardedOneShard (n : Z) : JSValue :=
  JSObject [("find", JSString "sharded");
            ("filter", JSObject [("x", JSNumber 1)]);
            ("readConcern", snapshotReadConcern);
            ("txnNumber", NumberLong n)].

Definition findShardedAllShards (n : Z) : JSValue :=
  JSObject [("find", JSString "sharded");
            ("readConcern", snapshotReadConcern);
            ("txnNumber", NumberLong n)].

Definition noCausalConsistency : JSValue :=
  JSObject [("causalConsistency", JSBool false)].

(** Runs reads with snapshot readConcern against mongos, expecting they
    either fail or succeed depending on the [expectSuccess] parameter. *)
Definition verifyGlobalSnapshotReads (conn : Conn) (expectSuccess : bool)
    (expectedCode : option Z) : M unit :=
  session <- startSession conn noCausalConsistency ;;
  (* Unsharded collection. *)
  let unshardedDb := getDatabase session "unshardedDb" in
  n <- txnNumber_postincr ;;
  runCommandAndVerifyResponse unshardedDb (findUnsharded n) expectSuccess expectedCode ;;
  (* Sharded collection, one shard. *)
  let shardedDb := getDatabase session "shardedDb" in
  n <- txnNumber_postincr ;;
  runCommandAndVerifyResponse shardedDb (findShardedOneShard n) expectSuccess expectedCode ;;
  (* Sharded collection, all shards. *)
  n <- txnNumber_postincr ;;
  runCommandAndVerifyResponse shardedDb (findShardedAllShards n) expectSuccess expectedCode.

Definition shardingTestParams : JSValue :=
  JSObject [("shards", JSNumber 2);
            ("mongos", JSNumber 2);
            ("other", JSObject
               [("configOptions", JSObject [("binVersion", JSString "last-stable")]);
                ("mongosOptions", JSObject [("binVersion", JSString "last-stable")]);
                ("rsOptions", JSObject [("binVersion", JSString "last-stable")])]);
            ("rs", JSObject [("nodes", JSNumber 3)])].

Definition upgradeOptions (configs mongos shards : bool) : JSValue :=
  JSObject [("upgradeConfigs", JSBool configs);
            ("upgradeMongos", JSBool mongos);
            ("upgradeShards", JSBool shards)].

Definition setFCVCommand (version : string) : JSValue :=
  JSObject [("setFeatureCompatibilityVersion", JSString version)].

(** The body of the file's top-level function. *)
Definition global_snapshot_reads_upgrade_cluster : M unit :=
  conn <- MongoRunner_runMongod ;;
  supportsSnapshotReadConcern <-
    serverStatus_supportsSnapshotReadConcern (ConnDb conn "test") ;;
  MongoRunner_stopMongod conn ;;
  if negb supportsSnapshotReadConcern then
    jsTestLog "Skipping test since storage engine doesn't support snapshot read concern."
  else
    let_txnNumber 0 ;;
    (* Start a cluster with two shards and two mongos at the last stable version. *)
    st <- new_ShardingTest shardingTestParams ;;
    (* Setup a sharded collection with two chunks, one on each shard. *)
    r <- adminCommand (st_s st) (JSObject [("enableSharding", JSString "shardedDb")]) ;;
    assert_commandWorked r None ;;
    ensurePrimaryShard "shardedDb" (st_shard0_shardName st) ;;
    r <- adminCommand (st_s st)
           (JSObject [("shardCollection", JSString "shardedDb.sharded");
                      ("key", JSObject [("x", JSNumber 1)])]) ;;
    assert_commandWorked r None ;;
    r <- adminCommand (st_s st)
           (JSObject [("split", JSString "shardedDb.sharded");
                      ("middle", JSObject [("x", JSNumber 0)])]) ;;
    assert_commandWorked r None ;;
    r <- adminCommand (st_s st)
           (JSObject [("moveChunk", JSString "shardedDb.sharded");
                      ("find", JSObject [("x", JSNumber 1)]);
                      ("to", JSString (st_shard1_shardName st))]) ;;
    assert_commandWorked r None ;;
    (* Insert some data for the reads to find. *)
    insert (ConnDb (st_s st) "unshardedDb") "unsharded" (JSObject [("x", JSNumber 1)]) ;;
    insert (ConnDb (st_s st) "shardedDb") "sharded"
           (JSArray [JSObject [("x", JSNumber (-1))]; JSObject [("x", JSNumber 1)]]) ;;
    (* Global snapshot reads are rejected with FailedToParse, because the shards
       will reject the unknown readConcern field. *)
    verifyGlobalSnapshotReads (st_s0 st) false (Some FailedToParse) ;;
    verifyGlobalSnapshotReads (st_s1 st) false (Some FailedToParse) ;;
    (* Upgrade the config servers. *)
    jsTest_log "Upgrading config servers." ;;
    upgradeCluster "latest" (upgradeOptions true false false) ;;
    (* Global snapshot reads are rejected with FailedToParse, because the shards
       will reject the unknown readConcern field. *)
    verifyGlobalSnapshotReads (st_s0 st) false (Some FailedToParse) ;;
    verifyGlobalSnapshotReads (st_s1 st) false (Some FailedToParse) ;;
    (* Then upgrade the shard servers. *)
    jsTest_log "Upgrading shard servers." ;;
    upgradeCluster "latest" (upgradeOptions false false true) ;;
    (* Global snapshot reads are rejected with InvalidOptions, because mongos will
       not forward the txnNumber to the upgraded shards. *)
    verifyGlobalSnapshotReads (st_s0 st) false (Some InvalidOptions) ;;
    verifyGlobalSnapshotReads (st_s1 st) false (Some InvalidOptions) ;;
    (* Finally, upgrade mongos servers. *)
    jsTest_log "Upgrading mongos servers." ;;
    upgradeCluster "latest" (upgradeOptions false true false) ;;
    primary <- configRS_getPrimary ;;
    checkFCV (ConnDb primary "admin") lastStableFCV ;;
    (* Global snapshot reads are accepted. *)
    verifyGlobalSnapshotReads (st_s0 st) true None ;;
    verifyGlobalSnapshotReads (st_s1 st) true None ;;
    (* Upgrade the cluster's feature compatibility version to the latest. *)
    r <- runCommand (ConnDb (st_s st) "admin") (setFCVCommand latestFCV) ;;
    assert_commandWorked r None ;;
    primary <- configRS_getPrimary ;;
    checkFCV (ConnDb primary "admin") latestFCV ;;
    (* Global snapshot reads are accepted. *)
    verifyGlobalSnapshotReads (st_s0 st) true None ;;
    verifyGlobalSnapshotReads (st_s1 st) true None ;;
    st_stop.

(** A run of the script against a world. *)
Definition run (w : World) : Outcome unit * St :=
  global_snapshot_reads_upgrade_cluster w init.

(** ** What the spec's phase table expects of each answer *)

(** The reply is a failure with exactly the code [c]. *)
Definition rejected_with (c : Z) (res : Response) : bool :=
  negb (ok res) && code_eqb (code res) (Some c).

(** The reply is a success, or a failure with exactly SnapshotTooOld. *)
Definition accepted (res : Response) : bool :=
  ok res || code_eqb (code res) (Some SnapshotTooOld).

(** The error code a phase designates, for the phases that reject. *)
Definition designated (p : Phase) : option Z :=
  match p with
  | OldVersion | ConfigsUpgraded => Some FailedToParse
  | ShardsUpgraded => Some InvalidOptions
  | RoutersUpgraded | CompatibilityBumped => None
  end.

Definition phase_allows (p : Phase) (res : Response) : bool :=
  match designated p with
  | Some c => rejected_with c res
  | None => accepted res
  end.

(** The marker a phase is expected to show. *)
Definition marker_of (p : Phase) : string :=
  match p with
  | CompatibilityBumped => latestFCV
  | _ => lastStableFCV
  end.

(** Whether the answer recorded in event [e], arriving after history [pre],
    is one the run may continue from: snapshot reads follow the phase table,
    every other command must work, the marker must be the phase's. *)
Definition answer_ok (pre : list Event) (e : Event) : bool :=
  match e with
  | EvRunCommand _ cmdObj res =>
      if snapshot_tagged cmdObj then
        match phase_at pre with
        | Some p => phase_allows p res
        | None => true
        end
      else ok res
  | EvGetFCV _ version =>
      match phase_at pre with
      | Some p => String.eqb version (marker_of p)
      | None => true
      end
  | _ => true
  end.

(** Where the script places its calls: the marker is read only once the
    routers run the new binaries, and the only compatibility version ever
    set is the latest. *)
Definition placed_ok (pre : list Event) (e : Event) : bool :=
  match e with
  | EvGetFCV _ _ =>
      match phase_at pre with
      | Some RoutersUpgraded | Some CompatibilityBumped => true
      | _ => false
      end
  | EvRunCommand _ cmdObj _ =>
      if has_field "setFeatureCompatibilityVersion" cmdObj then
        is_string latestFCV (get_field "setFeatureCompatibilityVersion" cmdObj)
      else true
  | _ => true
  end.

(** [f] holds of every event of the trace, given the events before it. *)
Definition All (f : list Event -> Event -> bool) (t : list Event) : Prop :=
  forall pre e post, t = pre ++ e :: post -> f pre e = true.

(** Every answer in the trace was one to continue from. *)
Definition Passed (t : list Event) : Prop := All answer_ok t.

(** Every call in the trace is where the script places it. *)
Definition Placed (t : list Event) : Prop := All placed_ok t.

(** The message names the command of the event (when it is a command). *)
Definition names_command (msg : option string) (e : Event) : Prop :=
  match e with
  | EvRunCommand _ cmdObj _ =>
      snapshot_tagged cmdObj = true ->
      exists before after, msg = Some (before ++ tojson cmdObj ++ after)%string
  | _ => True
  end.

(** The run stopped at its last event, whose answer was not acceptable. *)
Definition Failed (msg : option string) (s : St) : Prop :=
  exists t e, trace s = t ++ [e] /\ Passed t /\ answer_ok t e = false /\
              names_command msg e /\ Placed (trace s).

(** ** Reasoning about pieces of the script *)

Definition lands {A : Type} (Q : A -> St -> Prop) (E : option string -> St -> Prop)
    (r : Outcome A * St) : Prop :=
  match fst r with
  | Returned a => Q a (snd r)
  | Threw msg => E msg (snd r)
  end.

(** From any state satisfying [P], [m] returns in [Q] or throws in [E]. *)
Definition triple {A : Type} (w : World) (P : St -> Prop) (m : M A)
    (Q : A -> St -> Prop) (E : option string -> St -> Prop) : Prop :=
  forall s, P s -> lands Q E (m w s).

(** [m] only ever appends to the trace. *)
Definition extends {A : Type} (m : M A) : Prop :=
  forall w s, exists more, trace (snd (m w s)) = trace s ++ more.

(** The state after one more logged event. *)
Definition log_event (s : St) (e : Event) : St :=
  {| txnNumber := txnNumber s; trace := trace s ++ [e] |}.

(** What [runCommandAndVerifyResponse] decides about a reply. *)
Definition verdict (expectSuccess : bool) (expectedCode : option Z) (res : Response) : bool :=
  if expectSuccess then accepted res
  else negb (ok res) && code_eqb (code res) expectedCode.

(** The diagnostic names the command: [tojson cmdObj] occurs in it. *)
Definition names (msg : option string) (cmdObj : JSValue) : Prop :=
  exists before after, msg = Some (before ++ tojson cmdObj ++ after)%string.

(** The events of a complete battery through session [sess], started when
    the counter was [n], with the replies [r1], [r2], [r3]. *)
Definition battery_events (conn : Conn) (sess : Session) (n : Z)
    (r1 r2 r3 : Response) : list Event :=
  [EvStartSession conn noCausalConsistency sess;
   EvRunCommand (SessionDb sess "unshardedDb") (findUnsharded n) r1;
   EvRunCommand (SessionDb sess "shardedDb") (findShardedOneShard (n + 1)) r2;
   EvRunCommand (SessionDb sess "shardedDb") (findShardedAllShards (n + 2)) r3].

(** The ways a battery started in state [s] can end, [sess] being the
    session it was handed: it stops at the first reply its verifier rejects,
    or it goes through all three commands. *)
Definition battery_outcome (conn : Conn) (expectSuccess : bool) (expectedCode : option Z)
    (s : St) (sess : Session) (r : Outcome unit * St) : Prop :=
  exists r1 r2 r3,
    let n := txnNumber s in
    let evs := battery_events conn sess n r1 r2 r3 in
    let v := verdict expectSuccess expectedCode in
    (v r1 = false /\
     (exists msg, fst r = Threw msg /\ names msg (findUnsharded n)) /\
     snd r = {| txnNumber := n + 1; trace := trace s ++ firstn 2 evs |})
    \/
    (v r1 = true /\ v r2 = false /\
     (exists msg, fst r = Threw msg /\ names msg (findShardedOneShard (n + 1))) /\
     snd r = {| txnNumber := n + 2; trace := trace s ++ firstn 3 evs |})
    \/
    (v r1 = true /\ v r2 = true /\ v r3 = false /\
     (exists msg, fst r = Threw msg /\ names msg (findShardedAllShards (n + 2))) /\
     snd r = {| txnNumber := n + 3; trace := trace s ++ evs |})
    \/
    (v r1 = true /\ v r2 = true /\ v r3 = true /\
     fst r = Returned tt /\
     snd r = {| txnNumber := n + 3; trace := trace s ++ evs |}).

(** The invariant between two statements of the script: every answer so far
    was acceptable, and the cluster is in state [c]. *)
Definition Inv (c : Cluster) (s : St) : Prop :=
  Passed (trace s) /\ Placed (trace s) /\ cluster_after (trace s) = c.

(** How a run that returns ends: every answer was acceptable, and the last
    thing the script did was to stop the cluster, or to log why it skipped. *)
Definition Finished (s : St) : Prop :=
  Passed (trace s) /\ Placed (trace s) /\
  exists t e, trace s = t ++ [e] /\ (e = EvStop \/ exists text, e = EvLog text).

(** A snapshot-tagged find on collection [coll] with the given filter
    ([undefined] for a find of everything) and transaction number. *)
Definition snapshot_find (coll : string) (filter : JSValue) (n : Z) (cmdObj : JSValue) : Prop :=
  get_field "find" cmdObj = JSString coll /\
  get_field "filter" cmdObj = filter /\
  get_field "readConcern" cmdObj = JSObject [("level", JSString "snapshot")] /\
  get_field "txnNumber" cmdObj = NumberLong n.

(** Modelled from the spec: how a sharded collection is partitioned.  The
    router is not part of this file.  The collection is cut into ranges of
    the partition key [x] at its split points; the partition of a key is
    the number of split points at or below it, so a collection split at
    x = 0 has partition 0 for the keys below 0 and partition 1 for the
    others. *)
Definition partition_of (splits : list Z) (x : Z) : nat :=
  List.length (List.filter (fun p => p <=? x) splits).

(** Modelled from the spec: the keys a find can return.  A filter that pins
    the partition key to a number admits that key only; a find without such
    a filter admits every key. *)
Definition key_matches (filter : JSValue) (x : Z) : bool :=
  match get_field "x" filter with
  | JSNumber v => x =? v
  | _ => true
  end.

(** Modelled from the spec: a find is routed to the partitions that can
    hold a document it may return. *)
Definition targets (splits : list Z) (cmdObj : JSValue) (i : nat) : Prop :=
  exists x, partition_of splits x = i /\ key_matches (get_field "filter" cmdObj) x = true.

(** The transaction numbers sent so far are [0 .. k-1], in this order, and
    the counter stands at [k]. *)
Definition TxnAt (k : nat) (s : St) : Prop :=
  txn_ids (trace s) = counting k /\ txnNumber s = Z.of_nat k.

(** The three events of the probe on a standalone server. *)
Definition probe_events (conn : Conn) (supports : bool) : list Event :=
  [EvRunMongod conn;
   EvSupportsSnapshotReadConcern (ConnDb conn "test") supports;
   EvStopMongod conn].

(** Events that provision, seed, query, upgrade or stop the cluster. *)
Definition cluster_event (e : Event) : bool :=
  match e with
  | EvRunMongod _ | EvSupportsSnapshotReadConcern _ _ | EvStopMongod _ | EvLog _ => false
  | _ => true
  end.

(** The events up to the first battery: the probe, the cluster at the last
    stable version, the sharded collection split at x = 0 with one chunk
    moved to the second shard, and the documents. *)
Definition setup_events (conn : Conn) (st : ShardingTest) (r1 r2 r3 r4 : Response)
    : list Event :=
  probe_events conn true ++
  [EvShardingTest shardingTestParams st;
   EvRunCommand (ConnDb (st_s st) "admin")
     (JSObject [("enableSharding", JSString "shardedDb")]) r1;
   EvEnsurePrimaryShard "shardedDb" (st_shard0_shardName st);
   EvRunCommand (ConnDb (st_s st) "admin")
     (JSObject [("shardCollection", JSString "shardedDb.sharded");
                ("key", JSObject [("x", JSNumber 1)])]) r2;
   EvRunCommand (ConnDb (st_s st) "admin")
     (JSObject [("split", JSString "shardedDb.sharded");
                ("middle", JSObject [("x", JSNumber 0)])]) r3;
   EvRunCommand (ConnDb (st_s st) "admin")
     (JSObject [("moveChunk", JSString "shardedDb.sharded");
                ("find", JSObject [("x", JSNumber 1)]);
                ("to", JSString (st_shard1_shardName st))]) r4;
   EvInsert (ConnDb (st_s st) "unshardedDb") "unsharded" (JSObject [("x", JSNumber 1)]);
   EvInsert (ConnDb (st_s st) "shardedDb") "sharded"
     (JSArray [JSObject [("x", JSNumber (-1))]; JSObject [("x", JSNumber 1)]])].

(** What the world answered to one battery: the session and three replies. *)
Record BatteryAnswers : Type := {
  b_session : Session;
  b_reply1 : Response;
  b_reply2 : Response;
  b_reply3 : Response
}.

Definition battery_trace (conn : Conn) (n : Z) (a : BatteryAnswers) : list Event :=
  battery_events conn (b_session a) n (b_reply1 a) (b_reply2 a) (b_reply3 a).

(** All three replies of a battery satisfy [good]. *)
Definition battery_replies (good : Response -> bool) (a : BatteryAnswers) : Prop :=
  good (b_reply1 a) = true /\ good (b_reply2 a) = true /\ good (b_reply3 a) = true.

(** The batteries of one phase: first router, then second router. *)
Definition phase_trace (st : ShardingTest) (n : Z) (a b : BatteryAnswers) : list Event :=
  battery_trace (st_s0 st) n a ++ battery_trace (st_s1 st) (n + 3) b.

(** The part of a complete run from the router upgrade on: the marker is
    read and is the last-stable one, the reads of the phase follow, then the
    compatibility version is set to the latest, the marker is read again and
    is the latest, the reads of the last phase follow, and the cluster is
    stopped. *)
Definition after_router_upgrade (st : ShardingTest) (p1 p2 : Conn) (rset : Response)
    (a6 a7 a8 a9 : BatteryAnswers) : list Event :=
  [EvLog "Upgrading mongos servers.";
   EvUpgradeCluster "latest" (upgradeOptions false true false);
   EvGetPrimary p1;
   EvGetFCV (ConnDb p1 "admin") lastStableFCV] ++
  phase_trace st 18 a6 a7 ++
  [EvRunCommand (ConnDb (st_s st) "admin") (setFCVCommand latestFCV) rset;
   EvGetPrimary p2;
   EvGetFCV (ConnDb p2 "admin") latestFCV] ++
  phase_trace st 24 a8 a9 ++
  [EvStop].

(** The part of a complete run before the router upgrade. *)
Definition before_router_upgrade (conn : Conn) (st : ShardingTest)
    (r1 r2 r3 r4 : Response) (a0 a1 a2 a3 a4 a5 : BatteryAnswers) : list Event :=
  setup_events conn st r1 r2 r3 r4 ++
  phase_trace st 0 a0 a1 ++
  [EvLog "Upgrading config servers.";
   EvUpgradeCluster "latest" (upgradeOptions true false false)] ++
  phase_trace st 6 a2 a3 ++
  [EvLog "Upgrading shard servers.";
   EvUpgradeCluster "latest" (upgradeOptions false false true)] ++
  phase_trace st 12 a4 a5.

(** ** The script's calls in their fixed order *)

(** Everything the world answers in the course of a run that provisions
    the cluster. *)
Record ScriptAnswers : Type := {
  sa_conn : Conn;
  sa_st : ShardingTest;
  sa_r1 : Response;
  sa_r2 : Response;
  sa_r3 : Response;
  sa_r4 : Response;
  sa_a0 : BatteryAnswers;
  sa_a1 : BatteryAnswers;
  sa_a2 : BatteryAnswers;
  sa_a3 : BatteryAnswers;
  sa_a4 : BatteryAnswers;
  sa_a5 : BatteryAnswers;
  sa_p1 : Conn;
  sa_m1 : string;
  sa_a6 : BatteryAnswers;
  sa_a7 : BatteryAnswers;
  sa_rset : Response;
  sa_p2 : Conn;
  sa_m2 : string;
  sa_a8 : BatteryAnswers;
  sa_a9 : BatteryAnswers
}.

(** The calls of the script from [new ShardingTest] to [st.stop()], in
    program order, with the given answers filled in. *)
Definition script_events (a : ScriptAnswers) : list Event :=
  before_router_upgrade (sa_conn a) (sa_st a) (sa_r1 a) (sa_r2 a) (sa_r3 a) (sa_r4 a)
    (sa_a0 a) (sa_a1 a) (sa_a2 a) (sa_a3 a) (sa_a4 a) (sa_a5 a) ++
  [EvLog "Upgrading mongos servers.";
   EvUpgradeCluster "latest" (upgradeOptions false true false);
   EvGetPrimary (sa_p1 a);
   EvGetFCV (ConnDb (sa_p1 a) "admin") (sa_m1 a)] ++
  phase_trace (sa_st a) 18 (sa_a6 a) (sa_a7 a) ++
  [EvRunCommand (ConnDb (st_s (sa_st a)) "admin") (setFCVCommand latestFCV) (sa_rset a);
   EvGetPrimary (sa_p2 a);
   EvGetFCV (ConnDb (sa_p2 a) "admin") (sa_m2 a)] ++
  phase_trace (sa_st a) 24 (sa_a8 a) (sa_a9 a) ++
  [EvStop].

(** The trace of a run that skips the test. *)
Definition skip_events (conn : Conn) : list Event :=
  probe_events conn false ++
  [EvLog "Skipping test since storage engine doesn't support snapshot read concern."].

(** [f] checked along a list, [pre] being what came before it. *)
Fixpoint allb (f : list Event -> Event -> bool) (pre l : list Event) : bool :=
  match l with
  | [] => true
  | e :: l' => f pre e && allb f (pre ++ [e]) l'
  end.

(** [f] holds of every event of a list, given what came before it. *)
Fixpoint allP (f : list Event -> Event -> Prop) (pre l : list Event) : Prop :=
  match l with
  | [] => True
  | e :: l' => f pre e /\ allP f (pre ++ [e]) l'
  end.

Definition next_phase (p : Phase) : Phase :=
  match p with
  | OldVersion => ConfigsUpgraded
  | ConfigsUpgraded => ShardsUpgraded
  | ShardsUpgraded => RoutersUpgraded
  | RoutersUpgraded => CompatibilityBumped
  | CompatibilityBumped => CompatibilityBumped
  end.

(** The event leaves the cluster in its phase or moves it to the next one. *)
Definition steps_forward (pre : list Event) (e : Event) : Prop :=
  match phase_at pre, phase_at (pre ++ [e]) with
  | Some p, Some p' => p' = p \/ p' = next_phase p
  | _, _ => False
  end.

(** An upgrade call names the latest binaries and exactly one node group,
    the one that is due in the phase the cluster is in: the config servers
    in OldVersion, the shards in ConfigsUpgraded, the routers in
    ShardsUpgraded; and it moves the cluster to the next phase. *)
Definition upgrade_in_order (pre : list Event) (e : Event) : Prop :=
  match e with
  | EvUpgradeCluster binVersion options =>
      binVersion = "latest" /\
      match phase_at pre with
      | Some OldVersion =>
          options = upgradeOptions true false false /\
          phase_at (pre ++ [e]) = Some ConfigsUpgraded
      | Some ConfigsUpgraded =>
          options = upgradeOptions false false true /\
          phase_at (pre ++ [e]) = Some ShardsUpgraded
      | Some ShardsUpgraded =>
          options = upgradeOptions false true false /\
          phase_at (pre ++ [e]) = Some RoutersUpgraded
      | _ => False
      end
  | _ => True
  end.

(** The cluster object a run has got from [new ShardingTest], if any. *)
Fixpoint provisioned (t : list Event) : option ShardingTest :=
  match t with
  | [] => None
  | EvShardingTest _ st :: _ => Some st
  | _ :: t' => provisioned t'
  end.

(** How many sessions have been opened. *)
Fixpoint sessions_opened (t : list Event) : nat :=
  match t with
  | [] => 0%nat
  | EvStartSession _ _ _ :: t' => S (sessions_opened t')
  | _ :: t' => sessions_opened t'
  end.

(** The session opened last. *)
Definition last_session (t : list Event) : option Session :=
  fold_left (fun acc e => match e with EvStartSession _ _ s => Some s | _ => acc end)
            t None.

Definition last_event (t : list Event) : option Event :=
  match rev t with
  | e :: _ => Some e
  | [] => None
  end.

(** Sessions are opened on the two routers of the provisioned cluster in
    turn, the first router first. *)
Definition router_in_turn (pre : list Event) (e : Event) : Prop :=
  match e with
  | EvStartSession c _ _ =>
      match provisioned pre with
      | Some st => c = if Nat.even (sessions_opened pre) then st_s0 st else st_s1 st
      | None => False
      end
  | _ => True
  end.

(** A snapshot read goes to a database of the session opened last; any
    other command goes to the admin database through [st.s]. *)
Definition command_route (pre : list Event) (e : Event) : Prop :=
  match e with
  | EvRunCommand db cmdObj _ =>
      if snapshot_tagged cmdObj then
        match last_session pre with
        | Some sess => db = SessionDb sess "unshardedDb" \/ db = SessionDb sess "shardedDb"
        | None => False
        end
      else
        match provisioned pre with
        | Some st => db = ConnDb (st_s st) "admin"
        | None => False
        end
  | _ => True
  end.

(** The marker is read through the config server primary asked for in the
    call just before. *)
Definition marker_via_primary (pre : list Event) (e : Event) : Prop :=
  match e with
  | EvGetFCV db _ =>
      match last_event pre with
      | Some (EvGetPrimary p) => db = ConnDb p "admin"
      | _ => False
      end
  | _ => True
  end.

(** Calls that build the fixture: provisioning, the sharding set-up
    commands and the inserts. *)
Definition builds_fixture (e : Event) : bool :=
  match e with
  | EvShardingTest _ _ | EvEnsurePrimaryShard _ _ | EvInsert _ _ _ => true
  | EvRunCommand _ cmdObj _ =>
      negb (snapshot_tagged cmdObj) &&
      negb (has_field "setFeatureCompatibilityVersion" cmdObj)
  | _ => false
  end.

Definition fixture_first (pre : list Event) (e : Event) : Prop :=
  builds_fixture e = true -> sessions_opened pre = 0%nat.

(** The commands that carry a transaction number are the snapshot reads,
    and each carries the number of reads sent before it. *)
Definition numbered_in_order (pre : list Event) (e : Event) : Prop :=
  match e with
  | EvRunCommand _ cmdObj _ =>
      if snapshot_tagged cmdObj
      then txn_of e = Some (Z.of_nat (List.length (txn_ids pre)))
      else txn_of e = None
  | _ => True
  end.

Definition is_stop (e : Event) : bool :=
  match e with EvStop => true | _ => false end.

(** The three replies of a battery, in the order they arrive. *)
Definition replies (a : BatteryAnswers) : list Response :=
  [b_reply1 a; b_reply2 a; b_reply3 a].

(** ** Basic facts *)

Lemma code_eqb_eq (a b : option Z) : code_eqb a b = true <-> a = b.
Proof.
  destruct a as [x|], b as [y|]; simpl; split; intros H;
    try discriminate; try reflexivity.
  - apply Z.eqb_eq in H. now subst.
  - injection H as ->. apply Z.eqb_refl.
Qed.

Lemma code_eqb_sym (a b : option Z) : code_eqb a b = code_eqb b a.
Proof. destruct a, b; simpl; auto using Z.eqb_sym. Qed.

Lemma string_app_nil_r (x : string) : (x ++ "")%string = x.
Proof. induction x as [|c x IH]; simpl; [reflexivity | now rewrite IH]. Qed.

Lemma rejected_with_spec (c : Z) (res : Response) :
  rejected_with c res = true <-> ok res = false /\ code res = Some c.
Proof.
  unfold rejected_with. rewrite andb_true_iff, negb_true_iff, code_eqb_eq. tauto.
Qed.

Lemma accepted_spec (res : Response) :
  accepted res = true <->
  ok res = true \/ (ok res = false /\ code res = Some SnapshotTooOld).
Proof.
  unfold accepted. rewrite orb_true_iff, code_eqb_eq.
  destruct (ok res); intuition congruence.
Qed.

Lemma cluster_after_snoc (t : list Event) (e : Event) :
  cluster_after (t ++ [e]) = cluster_step (cluster_after t) e.
Proof. unfold cluster_after. now rewrite fold_left_app. Qed.

Lemma txn_ids_app (t u : list Event) : txn_ids (t ++ u) = txn_ids t ++ txn_ids u.
Proof.
  induction t as [|e t IH]; simpl; [reflexivity|].
  destruct (txn_of e); simpl; now rewrite IH.
Qed.

Lemma counting_S (k : nat) : counting (S k) = counting k ++ [Z.of_nat k].
Proof. unfold counting. now rewrite seq_S, map_app. Qed.

Lemma snoc_cases {A : Type} (l : list A) : l = [] \/ exists l' x, l = l' ++ [x].
Proof.
  induction l as [|x l' _] using rev_ind; [now left | right; eauto].
Qed.

Lemma All_nil (f : list Event -> Event -> bool) : All f [].
Proof. intros pre e post H. destruct pre; discriminate. Qed.

Lemma All_snoc (f : list Event -> Event -> bool) (t : list Event) (e : Event) :
  All f (t ++ [e]) <-> All f t /\ f t e = true.
Proof.
  split.
  - intros H. split.
    + intros pre e' post ->. apply (H pre e' (post ++ [e])).
      now rewrite <- app_assoc.
    + apply (H t e []). reflexivity.
  - intros [Ht He] pre e' post Heq.
    destruct (snoc_cases post) as [->|(post' & x & ->)].
    + apply app_inj_tail in Heq as [<- <-]. exact He.
    + change (pre ++ e' :: post' ++ [x]) with (pre ++ (e' :: post') ++ [x]) in Heq.
      rewrite app_assoc in Heq. apply app_inj_tail in Heq as [-> _].
      now apply (Ht pre e' post').
Qed.

Lemma All_prefix (f : list Event -> Event -> bool) (t u : list Event) :
  All f (t ++ u) -> All f t.
Proof.
  intros H pre e post ->. apply (H pre e (post ++ u)).
  now rewrite <- app_assoc.
Qed.

Lemma Passed_snoc (t : list Event) (e : Event) :
  Passed (t ++ [e]) <-> Passed t /\ answer_ok t e = true.
Proof. apply All_snoc. Qed.

Lemma Placed_snoc (t : list Event) (e : Event) :
  Placed (t ++ [e]) <-> Placed t /\ placed_ok t e = true.
Proof. apply All_snoc. Qed.

(** ** Rules for [triple] *)

Lemma triple_ret {A : Type} (w : World) (P : St -> Prop) (a : A)
    (Q : A -> St -> Prop) (E : option string -> St -> Prop) :
  (forall s, P s -> Q a s) -> triple w P (ret a) Q E.
Proof. intros H s Hs. now apply H. Qed.

Lemma triple_doassert {A : Type} (w : World) (P : St -> Prop) (msg : option string)
    (Q : A -> St -> Prop) (E : option string -> St -> Prop) :
  (forall s, P s -> E msg s) -> triple w P (doassert msg) Q E.
Proof. intros H s Hs. now apply H. Qed.

Lemma triple_bind {A B : Type} (w : World) (P : St -> Prop) (m : M A) (f : A -> M B)
    (R : A -> St -> Prop) (Q : B -> St -> Prop) (E : option string -> St -> Prop) :
  triple w P m R E ->
  (forall a, triple w (R a) (f a) Q E) ->
  triple w P (bind m f) Q E.
Proof.
  intros Hm Hf s Hs. specialize (Hm s Hs).
  unfold lands, bind in *. destruct (m w s) as [[a|msg] s']; simpl in *.
  - now apply Hf.
  - exact Hm.
Qed.

Lemma triple_call {A : Type} (w : World) (P : St -> Prop)
    (answer : World -> list Event -> A) (ev : A -> Event)
    (Q : A -> St -> Prop) (E : option string -> St -> Prop) :
  (forall a s, P s -> Q a (log_event s (ev a))) ->
  triple w P (call answer ev) Q E.
Proof. intros H s Hs. now apply H. Qed.

Lemma triple_weaken {A : Type} (w : World) (P P' : St -> Prop) (m : M A)
    (Q Q' : A -> St -> Prop) (E E' : option string -> St -> Prop) :
  triple w P' m Q' E' ->
  (forall s, P s -> P' s) ->
  (forall a s, Q' a s -> Q a s) ->
  (forall msg s, E' msg s -> E msg s) ->
  triple w P m Q E.
Proof.
  intros H HP HQ HE s Hs. specialize (H s (HP s Hs)).
  unfold lands in *. destruct (fst (m w s)); auto.
Qed.

(** ** The verifier, one command at a time *)

Lemma runCommandAndVerifyResponse_run (w : World) (s : St) (sessionDb : Database)
    (cmdObj : JSValue) (expectSuccess : bool) (expectedCode : option Z) :
  let res := w_runCommand w (trace s) sessionDb cmdObj in
  let s' := log_event s (EvRunCommand sessionDb cmdObj res) in
  (verdict expectSuccess expectedCode res = true /\
   runCommandAndVerifyResponse sessionDb cmdObj expectSuccess expectedCode w s
     = (Returned tt, s'))
  \/
  (verdict expectSuccess expectedCode res = false /\
   exists msg, names msg cmdObj /\
     runCommandAndVerifyResponse sessionDb cmdObj expectSuccess expectedCode w s
       = (Threw msg, s')).
Proof.
  intros res s'.
  unfold runCommandAndVerifyResponse, runCommand, bind, call, verdict, accepted.
  fold res. fold (log_event s (EvRunCommand sessionDb cmdObj res)). fold s'.
  destruct expectSuccess.
  - destruct (ok res) eqn:Hok; simpl.
    + left. unfold assert_commandWorked. rewrite Hok. now split.
    + unfold assert_eq. rewrite (code_eqb_sym (Some SnapshotTooOld)).
      destruct (code_eqb (code res) (Some SnapshotTooOld)).
      * left. now split.
      * right. split; [reflexivity|]. eexists. split; [|reflexivity].
        exists "unexpected error code, cmd: ", "". now rewrite string_app_nil_r.
  - unfold assert_commandFailedWithCode.
    destruct (negb (ok res) && code_eqb (code res) expectedCode).
    + left. now split.
    + right. split; [reflexivity|]. eexists. split; [|reflexivity].
      exists "command did not fail with expected error code, cmd: ".
      eexists. reflexivity.
Qed.

(** ** A whole battery *)

Lemma bind_call {A B : Type} (answer : World -> list Event -> A) (ev : A -> Event)
    (f : A -> M B) (w : World) (s : St) :
  bind (call answer ev) f w s
  = f (answer w (trace s)) w (log_event s (ev (answer w (trace s)))).
Proof. reflexivity. Qed.

Lemma bind_postincr {B : Type} (f : Z -> M B) (w : World) (s : St) :
  bind txnNumber_postincr f w s
  = f (txnNumber s) w {| txnNumber := txnNumber s + 1; trace := trace s |}.
Proof. reflexivity. Qed.

Lemma bind_let_txnNumber {B : Type} (n : Z) (f : unit -> M B) (w : World) (s : St) :
  bind (let_txnNumber n) f w s = f tt w {| txnNumber := n; trace := trace s |}.
Proof. reflexivity. Qed.

Lemma bind_returned {A B : Type} (m : M A) (f : A -> M B) (w : World) (s s' : St) (a : A) :
  m w s = (Returned a, s') -> bind m f w s = f a w s'.
Proof. intros H. unfold bind. now rewrite H. Qed.

Lemma bind_threw {A B : Type} (m : M A) (f : A -> M B) (w : World) (s s' : St)
    (msg : option string) :
  m w s = (Threw msg, s') -> bind m f w s = (Threw msg, s').
Proof. intros H. unfold bind. now rewrite H. Qed.

Lemma verifyGlobalSnapshotReads_run (w : World) (s : St) (conn : Conn)
    (expectSuccess : bool) (expectedCode : option Z) :
  battery_outcome conn expectSuccess expectedCode s
    (w_startSession w (trace s) conn noCausalConsistency)
    (verifyGlobalSnapshotReads conn expectSuccess expectedCode w s).
Proof.
  unfold verifyGlobalSnapshotReads, battery_outcome, battery_events.
  unfold startSession, getDatabase.
  rewrite bind_call, bind_postincr.
  set (sess := w_startSession w (trace s) conn noCausalConsistency).
  cbn [txnNumber trace log_event].
  match goal with |- context [bind (runCommandAndVerifyResponse ?d ?c _ _) ?f w ?st] =>
    destruct (runCommandAndVerifyResponse_run w st d c expectSuccess expectedCode)
      as [[V1 H1]|[V1 (m1 & N1 & H1)]];
    [rewrite (bind_returned _ f _ _ _ _ H1) | rewrite (bind_threw _ f _ _ _ _ H1)];
    clear H1; cbn [txnNumber trace log_event] in *;
    set (r1 := w_runCommand w _ d c) in *
  end.
  2:{ exists r1, r1, r1. left. unfold log_event. cbn. rewrite <- app_assoc. eauto 10. }
  rewrite bind_postincr. cbn [txnNumber trace log_event].
  match goal with |- context [bind (runCommandAndVerifyResponse ?d ?c _ _) ?f w ?st] =>
    destruct (runCommandAndVerifyResponse_run w st d c expectSuccess expectedCode)
      as [[V2 H2]|[V2 (m2 & N2 & H2)]];
    [rewrite (bind_returned _ f _ _ _ _ H2) | rewrite (bind_threw _ f _ _ _ _ H2)];
    clear H2; cbn [txnNumber trace log_event] in *;
    set (r2 := w_runCommand w _ d c) in *
  end.
  2:{ exists r1, r2, r2. right. left. unfold log_event. cbn.
      rewrite <- !app_assoc. replace (txnNumber s + 1 + 1) with (txnNumber s + 2) by lia.
      eauto 10. }
  rewrite bind_postincr. cbn [txnNumber trace log_event].
  match goal with |- context [runCommandAndVerifyResponse ?d ?c _ _ w ?st] =>
    destruct (runCommandAndVerifyResponse_run w st d c expectSuccess expectedCode)
      as [[V3 H3]|[V3 (m3 & N3 & H3)]];
    rewrite H3; clear H3; cbn [txnNumber trace log_event] in *;
    set (r3 := w_runCommand w _ d c) in *
  end.
  all: exists r1, r2, r3; right; right; [> right | left]; unfold log_event; cbn;
    rewrite <- !app_assoc;
    replace (txnNumber s + 1 + 1 + 1) with (txnNumber s + 3) by lia;
    replace (txnNumber s + 1 + 1) with (txnNumber s + 2) in * by lia;
    eauto 10.
Qed.

(** The same, with every reply named: each is what the world answers to
    the command at the moment it is sent, and the battery goes on to the
    next command exactly when the verifier accepts the reply. *)
Lemma verifyGlobalSnapshotReads_exact (w : World) (s : St) (conn : Conn)
    (expectSuccess : bool) (expectedCode : option Z) :
  let v := verdict expectSuccess expectedCode in
  let n := txnNumber s in
  let sess := w_startSession w (trace s) conn noCausalConsistency in
  let e0 := EvStartSession conn noCausalConsistency sess in
  let r1 := w_runCommand w (trace s ++ [e0])
              (SessionDb sess "unshardedDb") (findUnsharded n) in
  let e1 := EvRunCommand (SessionDb sess "unshardedDb") (findUnsharded n) r1 in
  let r2 := w_runCommand w (trace s ++ [e0; e1])
              (SessionDb sess "shardedDb") (findShardedOneShard (n + 1)) in
  let e2 := EvRunCommand (SessionDb sess "shardedDb") (findShardedOneShard (n + 1)) r2 in
  let r3 := w_runCommand w (trace s ++ [e0; e1; e2])
              (SessionDb sess "shardedDb") (findShardedAllShards (n + 2)) in
  let e3 := EvRunCommand (SessionDb sess "shardedDb") (findShardedAllShards (n + 2)) r3 in
  let r := verifyGlobalSnapshotReads conn expectSuccess expectedCode w s in
  trace (snd r) =
    trace s ++ e0 :: firstn (if v r1 then if v r2 then 3 else 2 else 1) [e1; e2; e3] /\
  (fst r = Returned tt <-> v r1 = true /\ v r2 = true /\ v r3 = true) /\
  (fst r <> Returned tt -> exists msg, fst r = Threw msg).
Proof.
  intros v n sess e0 r1 e1 r2 e2 r3 e3 r.
  assert (A1 : (trace s ++ [e0]) ++ [e1] = trace s ++ [e0; e1])
    by (rewrite <- app_assoc; reflexivity).
  assert (A2 : (trace s ++ [e0; e1]) ++ [e2] = trace s ++ [e0; e1; e2])
    by (rewrite <- app_assoc; reflexivity).
  assert (A3 : (trace s ++ [e0; e1; e2]) ++ [e3] = trace s ++ [e0; e1; e2; e3])
    by (rewrite <- app_assoc; reflexivity).
  subst r. unfold verifyGlobalSnapshotReads, startSession, getDatabase.
  rewrite bind_call, bind_postincr. fold sess. fold e0.
  unfold log_event. cbn [txnNumber trace]. fold n.
  match goal with |- context [bind (runCommandAndVerifyResponse ?d ?c _ _) ?f w ?st] =>
    destruct (runCommandAndVerifyResponse_run w st d c expectSuccess expectedCode)
      as [[V1 H1]|[V1 (m1 & N1 & H1)]];
    [rewrite (bind_returned _ f _ _ _ _ H1) | rewrite (bind_threw _ f _ _ _ _ H1)];
    clear H1; unfold log_event in *; cbn [txnNumber trace] in *
  end; fold r1 in V1 |- *; fold v in V1; rewrite V1.
  2:{ fold e1. cbn [fst snd trace firstn]. rewrite <- app_assoc.
      split; [reflexivity|]. split; [|eauto].
      split; [discriminate | intros (F & _); discriminate F]. }
  fold e1. rewrite A1. rewrite bind_postincr. cbn [txnNumber trace].
  match goal with |- context [bind (runCommandAndVerifyResponse ?d ?c _ _) ?f w ?st] =>
    destruct (runCommandAndVerifyResponse_run w st d c expectSuccess expectedCode)
      as [[V2 H2]|[V2 (m2 & N2 & H2)]];
    [rewrite (bind_returned _ f _ _ _ _ H2) | rewrite (bind_threw _ f _ _ _ _ H2)];
    clear H2; unfold log_event in *; cbn [txnNumber trace] in *
  end; fold r2 in V2 |- *; fold v in V2; rewrite V2.
  2:{ fold e2. cbn [fst snd trace firstn]. rewrite A2.
      split; [reflexivity|]. split; [|eauto].
      split; [discriminate | intros (_ & F & _); discriminate F]. }
  fold e2. rewrite A2. rewrite bind_postincr. cbn [txnNumber trace].
  replace (n + 1 + 1) with (n + 2) by lia.
  match goal with |- context [runCommandAndVerifyResponse ?d ?c _ _ w ?st] =>
    destruct (runCommandAndVerifyResponse_run w st d c expectSuccess expectedCode)
      as [[V3 H3]|[V3 (m3 & N3 & H3)]];
    rewrite H3; clear H3; unfold log_event in *; cbn [txnNumber trace] in *
  end; fold r3 in V3 |- *; fold v in V3; fold e3; rewrite A3;
    cbn [fst snd trace firstn]; (split; [reflexivity|]).
  - split; [tauto | congruence].
  - split; [|eauto]. split; [discriminate | intros (_ & _ & F); congruence].
Qed.

(** ** The invariant along the script *)

Lemma inv_call {A : Type} (w : World) (c c' : Cluster)
    (answer : World -> list Event -> A) (ev : A -> Event) :
  (forall t a, answer_ok t (ev a) = true) ->
  (forall t a, placed_ok t (ev a) = true) ->
  (forall a, cluster_step c (ev a) = c') ->
  triple w (Inv c) (call answer ev) (fun _ => Inv c') Failed.
Proof.
  intros Hok Hpl Hc. apply triple_call. intros a s (HP & HL & HC).
  repeat split; cbn [log_event trace].
  - apply Passed_snoc. auto.
  - apply Placed_snoc. auto.
  - rewrite cluster_after_snoc, HC. apply Hc.
Qed.

Lemma inv_let_txnNumber (w : World) (c : Cluster) (n : Z) :
  triple w (Inv c) (let_txnNumber n) (fun _ => Inv c) Failed.
Proof. intros s H. exact H. Qed.

(** A command that is not a snapshot read, followed by [assert.commandWorked]. *)
Lemma inv_commandWorked {B : Type} (w : World) (c c' : Cluster) (db : Database)
    (cmdObj : JSValue) (k : M B) (Q : B -> St -> Prop) :
  snapshot_tagged cmdObj = false ->
  (forall t res, placed_ok t (EvRunCommand db cmdObj res) = true) ->
  (forall res, ok res = true -> cluster_step c (EvRunCommand db cmdObj res) = c') ->
  triple w (Inv c') k Q Failed ->
  triple w (Inv c)
    (bind (runCommand db cmdObj) (fun r => bind (assert_commandWorked r None) (fun _ => k)))
    Q Failed.
Proof.
  intros Htag Hpl Hc Hk s (HP & HL & HC). unfold runCommand. rewrite bind_call.
  set (res := w_runCommand w (trace s) db cmdObj).
  assert (HL' : Placed (trace s ++ [EvRunCommand db cmdObj res]))
    by (apply Placed_snoc; auto).
  unfold assert_commandWorked. destruct (ok res) eqn:Hok.
  - unfold bind at 1, ret. apply Hk. repeat split; cbn [log_event trace].
    + apply Passed_snoc. split; [exact HP|]. cbn. now rewrite Htag.
    + exact HL'.
    + rewrite cluster_after_snoc, HC. now apply Hc.
  - unfold bind, doassert, lands. cbn [fst snd log_event].
    exists (trace s), (EvRunCommand db cmdObj res). repeat split; auto.
    + cbn. now rewrite Htag.
    + cbn. congruence.
Qed.

Lemma inv_checkFCV (w : World) (c : Cluster) (p : Phase) (db : Database) (version : string) :
  phase_of c = Some p ->
  p = RoutersUpgraded \/ p = CompatibilityBumped ->
  marker_of p = version ->
  triple w (Inv c) (checkFCV db version) (fun _ => Inv c) Failed.
Proof.
  intros Hp Hphase Hv s (HP & HL & HC). unfold checkFCV. rewrite bind_call.
  set (marker := w_getFCV w (trace s) db).
  assert (Hans : answer_ok (trace s) (EvGetFCV db marker) = String.eqb marker version).
  { cbn. unfold phase_at. now rewrite HC, Hp, Hv. }
  assert (HL' : Placed (trace s ++ [EvGetFCV db marker])).
  { apply Placed_snoc. split; [exact HL|]. cbn. unfold phase_at. rewrite HC, Hp.
    now destruct Hphase as [-> | ->]. }
  destruct (String.eqb marker version) eqn:Heq.
  - unfold ret, lands. cbn [fst snd]. repeat split; cbn [trace log_event].
    + apply Passed_snoc. auto.
    + exact HL'.
    + now rewrite cluster_after_snoc, HC.
  - unfold doassert, lands. cbn [fst snd].
    exists (trace s), (EvGetFCV db marker). repeat split; auto.
Qed.

Lemma inv_battery (w : World) (c : Cluster) (p : Phase) (conn : Conn)
    (expectSuccess : bool) (expectedCode : option Z) :
  phase_of c = Some p ->
  (forall res, phase_allows p res = verdict expectSuccess expectedCode res) ->
  triple w (Inv c) (verifyGlobalSnapshotReads conn expectSuccess expectedCode)
    (fun _ => Inv c) Failed.
Proof.
  intros Hp Hv s (HP & HL & HC).
  destruct (verifyGlobalSnapshotReads_run w s conn expectSuccess expectedCode)
    as (r1 & r2 & r3 & H).
  set (sess := w_startSession w (trace s) conn noCausalConsistency) in H.
  cbv zeta in H. unfold battery_events in H.
  set (e0 := EvStartSession conn noCausalConsistency sess) in *.
  set (e1 := EvRunCommand _ (findUnsharded _) r1) in *.
  set (e2 := EvRunCommand _ (findShardedOneShard _) r2) in *.
  set (e3 := EvRunCommand _ (findShardedAllShards _) r3) in *.
  assert (C0 : cluster_after (trace s ++ [e0]) = c)
    by now rewrite cluster_after_snoc, HC.
  assert (C1 : cluster_after ((trace s ++ [e0]) ++ [e1]) = c)
    by now rewrite cluster_after_snoc, C0.
  assert (C2 : cluster_after (((trace s ++ [e0]) ++ [e1]) ++ [e2]) = c)
    by now rewrite cluster_after_snoc, C1.
  assert (C3 : cluster_after ((((trace s ++ [e0]) ++ [e1]) ++ [e2]) ++ [e3]) = c)
    by now rewrite cluster_after_snoc, C2.
  assert (A1 : answer_ok (trace s ++ [e0]) e1 = verdict expectSuccess expectedCode r1).
  { cbn. unfold phase_at. now rewrite C0, Hp, Hv. }
  assert (A2 : answer_ok ((trace s ++ [e0]) ++ [e1]) e2
               = verdict expectSuccess expectedCode r2).
  { cbn. unfold phase_at. now rewrite C1, Hp, Hv. }
  assert (A3 : answer_ok (((trace s ++ [e0]) ++ [e1]) ++ [e2]) e3
               = verdict expectSuccess expectedCode r3).
  { cbn. unfold phase_at. now rewrite C2, Hp, Hv. }
  assert (P0 : Passed (trace s ++ [e0])) by (apply Passed_snoc; auto).
  assert (L0 : Placed (trace s ++ [e0])) by (apply Placed_snoc; auto).
  assert (L1 : Placed ((trace s ++ [e0]) ++ [e1])) by (apply Placed_snoc; auto).
  assert (L2 : Placed (((trace s ++ [e0]) ++ [e1]) ++ [e2])) by (apply Placed_snoc; auto).
  assert (L3 : Placed ((((trace s ++ [e0]) ++ [e1]) ++ [e2]) ++ [e3]))
    by (apply Placed_snoc; auto).
  unfold lands.
  destruct H as [(V1 & (m & -> & N) & ->)
              |[(V1 & V2 & (m & -> & N) & ->)
              |[(V1 & V2 & V3 & (m & -> & N) & ->)
              |(V1 & V2 & V3 & -> & ->)]]]; cbn [firstn trace fst snd].
  - exists (trace s ++ [e0]), e1. split; [now rewrite <- app_assoc|].
    split; [assumption|]. split; [congruence|]. split; [intros _; exact N|].
    now rewrite <- !app_assoc in L1.
  - assert (P1 : Passed ((trace s ++ [e0]) ++ [e1]))
      by (apply Passed_snoc; split; [assumption | congruence]).
    exists ((trace s ++ [e0]) ++ [e1]), e2. split; [now rewrite <- !app_assoc|].
    split; [assumption|]. split; [congruence|]. split; [intros _; exact N|].
    now rewrite <- !app_assoc in L2.
  - assert (P1 : Passed ((trace s ++ [e0]) ++ [e1]))
      by (apply Passed_snoc; split; [assumption | congruence]).
    assert (P2 : Passed (((trace s ++ [e0]) ++ [e1]) ++ [e2]))
      by (apply Passed_snoc; split; [assumption | congruence]).
    exists (((trace s ++ [e0]) ++ [e1]) ++ [e2]), e3. split; [now rewrite <- !app_assoc|].
    split; [assumption|]. split; [congruence|]. split; [intros _; exact N|].
    now rewrite <- !app_assoc in L3.
  - assert (P1 : Passed ((trace s ++ [e0]) ++ [e1]))
      by (apply Passed_snoc; split; [assumption | congruence]).
    assert (P2 : Passed (((trace s ++ [e0]) ++ [e1]) ++ [e2]))
      by (apply Passed_snoc; split; [assumption | congruence]).
    assert (P3 : Passed ((((trace s ++ [e0]) ++ [e1]) ++ [e2]) ++ [e3]))
      by (apply Passed_snoc; split; [assumption | congruence]).
    rewrite <- !app_assoc in P3, L3, C3. repeat split; assumption.
Qed.

Lemma inv_last_call (w : World) (c : Cluster) (e : Event) :
  (forall t, answer_ok t e = true) ->
  (forall t, placed_ok t e = true) ->
  e = EvStop \/ (exists text, e = EvLog text) ->
  triple w (Inv c) (call (fun _ _ => tt) (fun _ => e)) (fun _ => Finished) Failed.
Proof.
  intros Hok Hpl He. apply triple_call. intros _ s (HP & HL & _).
  repeat split; cbn [log_event trace].
  - apply Passed_snoc. auto.
  - apply Placed_snoc. auto.
  - eauto.
Qed.

Ltac inv_step :=
  lazymatch goal with
  | |- triple _ _ (bind (runCommand _ _) (fun r => bind (assert_commandWorked r None) _)) _ _ =>
      eapply inv_commandWorked;
      [ reflexivity
      | intros; cbn; try apply String.eqb_refl; reflexivity
      | let H := fresh "Hok" in intros ? H; cbn; try rewrite H; reflexivity
      | ]
  | |- triple _ _ (bind (call _ _) _) _ _ =>
      eapply triple_bind;
      [ eapply inv_call; [intros; reflexivity | intros; reflexivity | intros; cbn; reflexivity]
      | intro; cbv beta ]
  | |- triple _ _ (bind (let_txnNumber _) _) _ _ =>
      eapply triple_bind; [ apply inv_let_txnNumber | intro; cbv beta ]
  | |- triple _ _ (bind (checkFCV _ _) _) _ _ =>
      eapply triple_bind;
      [ eapply inv_checkFCV; [reflexivity | auto | reflexivity] | intro; cbv beta ]
  | |- triple _ _ (bind (verifyGlobalSnapshotReads _ _ _) _) _ _ =>
      eapply triple_bind;
      [ eapply inv_battery; [reflexivity | intros; reflexivity] | intro; cbv beta ]
  end.

Ltac open_shell :=
  unfold MongoRunner_runMongod, MongoRunner_stopMongod,
    serverStatus_supportsSnapshotReadConcern, jsTest_log, jsTestLog, new_ShardingTest,
    adminCommand, ensurePrimaryShard, insert, upgradeCluster,
    configRS_getPrimary, st_stop.

(** Whatever the world answers, a run of the script either returns with
    every answer accepted, or stops at the first answer that was not. *)
Lemma script_triple (w : World) :
  triple w (Inv lastStableCluster) global_snapshot_reads_upgrade_cluster
    (fun _ => Finished) Failed.
Proof.
  unfold global_snapshot_reads_upgrade_cluster. open_shell.
  do 3 inv_step.
  match goal with b : bool |- _ => destruct b end; cbn [negb].
  2:{ apply inv_last_call; [reflexivity | reflexivity | right; eauto]. }
  repeat inv_step.
  apply inv_last_call; [reflexivity | reflexivity | now left].
Qed.

Lemma Inv_init : Inv lastStableCluster init.
Proof. repeat split; apply All_nil. Qed.

Lemma run_verdict (w : World) : lands (fun _ => Finished) Failed (run w).
Proof. apply script_triple, Inv_init. Qed.

(** An answer in the trace decides whether the run went on: after an
    acceptable one something follows, an unacceptable one is the last event
    of a run that threw. *)
Lemma answer_decides (w : World) (pre post : list Event) (e : Event) :
  trace (snd (run w)) = pre ++ e :: post ->
  e <> EvStop -> (forall text, e <> EvLog text) ->
  (post <> [] <-> answer_ok pre e = true) /\
  (answer_ok pre e = false ->
   post = [] /\ exists msg, fst (run w) = Threw msg /\ names_command msg e).
Proof.
  intros Htr Hstop Hlog. pose proof (run_verdict w) as H. unfold lands in H.
  destruct (run w) as [[[]|msg] s]; cbn [fst snd] in *.
  - destruct H as (HP & _ & t & e' & Hlast & He').
    assert (Hok : answer_ok pre e = true) by (eapply HP; eassumption).
    split; [|congruence]. split; [auto|]. intros _ ->.
    rewrite Htr in Hlast. apply app_inj_tail in Hlast as [_ <-].
    destruct He' as [He'|[text He']]; [contradiction | now apply (Hlog text)].
  - destruct H as (t & e' & Hlast & HP & Hbad & Hname & _).
    destruct (snoc_cases post) as [->|(post' & x & ->)].
    + rewrite Htr in Hlast. apply app_inj_tail in Hlast as [<- <-].
      split; [split; [congruence | intros Hc; congruence]|]. eauto.
    + assert (Hok : answer_ok pre e = true).
      { apply (HP pre e post'). rewrite Htr in Hlast.
        change (pre ++ e :: post' ++ [x]) with (pre ++ (e :: post') ++ [x]) in Hlast.
        rewrite app_assoc in Hlast. now apply app_inj_tail in Hlast as [<- _]. }
      split; [|congruence]. split; [auto|]. intros _. now destruct post'.
Qed.

(** ** Running the script from a known state *)

Lemma exec_call {A B : Type} (answer : World -> list Event -> A) (ev : A -> Event)
    (f : A -> M B) (w : World) (s : St) (G : Outcome B * St -> Prop) :
  (forall a, G (f a w (log_event s (ev a)))) -> G (bind (call answer ev) f w s).
Proof. intros H. rewrite bind_call. apply H. Qed.

Lemma exec_assert_commandWorked {B : Type} (res : Response) (msg : option string)
    (f : unit -> M B) (w : World) (s : St) (G : Outcome B * St -> Prop) :
  (ok res = false -> G (Threw msg, s)) ->
  (ok res = true -> G (f tt w s)) ->
  G (bind (assert_commandWorked res msg) f w s).
Proof.
  intros Hf Ht. unfold bind, assert_commandWorked.
  destruct (ok res); cbn; auto.
Qed.

Lemma exec_battery {B : Type} (conn : Conn) (expectSuccess : bool)
    (expectedCode : option Z) (f : unit -> M B) (w : World) (s : St)
    (G : Outcome B * St -> Prop) :
  (forall sess r,
     battery_outcome conn expectSuccess expectedCode s sess r ->
     match fst r with
     | Returned _ => G (f tt w (snd r))
     | Threw msg => G (Threw msg, snd r)
     end) ->
  G (bind (verifyGlobalSnapshotReads conn expectSuccess expectedCode) f w s).
Proof.
  intros H. specialize (H _ _ (verifyGlobalSnapshotReads_run w s conn expectSuccess expectedCode)).
  unfold bind.
  destruct (verifyGlobalSnapshotReads conn expectSuccess expectedCode w s) as [[[]|msg] s'];
    exact H.
Qed.

(** ** A run that goes through *)

Lemma exec_checkFCV {B : Type} (db : Database) (version : string)
    (f : unit -> M B) (w : World) (s : St) (G : Outcome B * St -> Prop) :
  G (f tt w (log_event s (EvGetFCV db version))) ->
  (forall marker, G (Threw None, log_event s (EvGetFCV db marker))) ->
  G (bind (checkFCV db version) f w s).
Proof.
  intros Ht Hf. unfold checkFCV. unfold bind at 1. rewrite bind_call.
  destruct (String.eqb (w_getFCV w (trace s) db) version) eqn:E.
  - apply String.eqb_eq in E. rewrite E. exact Ht.
  - apply Hf.
Qed.

Lemma exec_battery_passing {B : Type} (conn : Conn) (expectSuccess : bool)
    (expectedCode : option Z) (f : unit -> M B) (w : World) (s : St)
    (G : Outcome B * St -> Prop) :
  (forall msg s', G (Threw msg, s')) ->
  (forall a : BatteryAnswers,
     battery_replies (verdict expectSuccess expectedCode) a ->
     G (f tt w {| txnNumber := txnNumber s + 3;
                  trace := trace s ++ battery_trace conn (txnNumber s) a |})) ->
  G (bind (verifyGlobalSnapshotReads conn expectSuccess expectedCode) f w s).
Proof.
  intros Hthrow Hpass. apply exec_battery. intros sess [o s'] (q1 & q2 & q3 & H).
  cbv zeta in H. cbn [fst snd] in *.
  destruct H as [(_ & (m & -> & _) & _)
              |[(_ & _ & (m & -> & _) & _)
              |[(_ & _ & _ & (m & -> & _) & _)
              |(V1 & V2 & V3 & -> & ->)]]]; try apply Hthrow.
  apply (Hpass {| b_session := sess; b_reply1 := q1; b_reply2 := q2; b_reply3 := q3 |}).
  repeat split; assumption.
Qed.

Ltac exec_norm :=
  unfold log_event, battery_trace, battery_events; cbn [trace txnNumber app].

(** A run that returns either skipped the test after the probe, or went
    through every statement of the script, with every reply as its phase
    wants it. *)
Lemma passing_run (w : World) :
  fst (run w) = Returned tt ->
  (exists conn,
     trace (snd (run w)) = probe_events conn false ++
       [EvLog "Skipping test since storage engine doesn't support snapshot read concern."])
  \/
  (exists conn st r1 r2 r3 r4 a0 a1 a2 a3 a4 a5 p1 p2 rset a6 a7 a8 a9,
     trace (snd (run w)) =
       before_router_upgrade conn st r1 r2 r3 r4 a0 a1 a2 a3 a4 a5 ++
       after_router_upgrade st p1 p2 rset a6 a7 a8 a9 /\
     battery_replies (rejected_with FailedToParse) a0 /\
     battery_replies (rejected_with FailedToParse) a1 /\
     battery_replies (rejected_with FailedToParse) a2 /\
     battery_replies (rejected_with FailedToParse) a3 /\
     battery_replies (rejected_with InvalidOptions) a4 /\
     battery_replies (rejected_with InvalidOptions) a5 /\
     battery_replies accepted a6 /\ battery_replies accepted a7 /\
     ok rset = true /\
     battery_replies accepted a8 /\ battery_replies accepted a9).
Proof.
  pattern (run w). match goal with |- ?P _ => set (G := P) end.
  assert (Gthrow : forall msg s', G (Threw msg, s')) by (intros msg s' H; discriminate H).
  unfold run, global_snapshot_reads_upgrade_cluster. open_shell. unfold runCommand.
  apply exec_call; intros conn.
  apply exec_call; intros supports.
  apply exec_call; intros _. exec_norm. cbn [init trace app].
  destruct supports; cbn [negb].
  2:{ intros _. left. eexists. reflexivity. }
  rewrite bind_let_txnNumber. cbn [trace].
  apply exec_call; intros st.
  apply exec_call; intros r1.
  apply exec_assert_commandWorked; [intros _; apply Gthrow | intros _].
  apply exec_call; intros _.
  apply exec_call; intros r2.
  apply exec_assert_commandWorked; [intros _; apply Gthrow | intros _].
  apply exec_call; intros r3.
  apply exec_assert_commandWorked; [intros _; apply Gthrow | intros _].
  apply exec_call; intros r4.
  apply exec_assert_commandWorked; [intros _; apply Gthrow | intros _].
  apply exec_call; intros _.
  apply exec_call; intros _. exec_norm.
  apply exec_battery_passing; [exact Gthrow | intros a0 A0]. exec_norm.
  apply exec_battery_passing; [exact Gthrow | intros a1 A1]. exec_norm.
  apply exec_call; intros _.
  apply exec_call; intros _. exec_norm.
  apply exec_battery_passing; [exact Gthrow | intros a2 A2]. exec_norm.
  apply exec_battery_passing; [exact Gthrow | intros a3 A3]. exec_norm.
  apply exec_call; intros _.
  apply exec_call; intros _. exec_norm.
  apply exec_battery_passing; [exact Gthrow | intros a4 A4]. exec_norm.
  apply exec_battery_passing; [exact Gthrow | intros a5 A5]. exec_norm.
  apply exec_call; intros _.
  apply exec_call; intros _.
  apply exec_call; intros p1.
  apply exec_checkFCV; [| intros marker; apply Gthrow]. exec_norm.
  apply exec_battery_passing; [exact Gthrow | intros a6 A6]. exec_norm.
  apply exec_battery_passing; [exact Gthrow | intros a7 A7]. exec_norm.
  apply exec_call; intros rset.
  apply exec_assert_commandWorked; [intros _; apply Gthrow | intros Hset].
  apply exec_call; intros p2.
  apply exec_checkFCV; [| intros marker; apply Gthrow]. exec_norm.
  apply exec_battery_passing; [exact Gthrow | intros a8 A8]. exec_norm.
  apply exec_battery_passing; [exact Gthrow | intros a9 A9]. exec_norm.
  unfold call. exec_norm.
  intros _. right.
  exists conn, st, r1, r2, r3, r4, a0, a1, a2, a3, a4, a5, p1, p2, rset, a6, a7, a8, a9.
  split; [reflexivity|]. repeat (split; [assumption|]). assumption.
Qed.

(** ** Properties of the script *)

(** C1: in a run of the script, a snapshot read issued while the cluster is
    in one of the phases before the full upgrade is followed by anything at
    all only if its reply is a failure with the phase's designated code:
    FailedToParse in OldVersion and in ConfigsUpgraded, InvalidOptions in
    ShardsUpgraded.  Any other reply is the last event of the run, which
    threw.  A run that goes all the way has had, against the first and then
    the second router, three reads rejected with FailedToParse before any
    upgrade, three more after the config servers were upgraded, and three
    rejected with InvalidOptions after the shards were upgraded. *)
Theorem rejected_before_full_upgrade :
  (forall (w : World) (pre post : list Event) (db : Database) (cmdObj : JSValue)
          (res : Response) (p : Phase) (c : Z),
     trace (snd (run w)) = pre ++ EvRunCommand db cmdObj res :: post ->
     snapshot_tagged cmdObj = true ->
     phase_at pre = Some p ->
     (p = OldVersion /\ c = FailedToParse) \/
     (p = ConfigsUpgraded /\ c = FailedToParse) \/
     (p = ShardsUpgraded /\ c = InvalidOptions) ->
     (post <> [] <-> ok res = false /\ code res = Some c) /\
     (~ (ok res = false /\ code res = Some c) ->
      post = [] /\ exists msg, fst (run w) = Threw msg)) /\
  (forall w : World,
     fst (run w) = Returned tt ->
     In EvStop (trace (snd (run w))) ->
     exists conn st r1 r2 r3 r4 a0 a1 a2 a3 a4 a5 rest,
       trace (snd (run w)) =
         before_router_upgrade conn st r1 r2 r3 r4 a0 a1 a2 a3 a4 a5 ++ rest /\
       battery_replies (rejected_with FailedToParse) a0 /\
       battery_replies (rejected_with FailedToParse) a1 /\
       battery_replies (rejected_with FailedToParse) a2 /\
       battery_replies (rejected_with FailedToParse) a3 /\
       battery_replies (rejected_with InvalidOptions) a4 /\
       battery_replies (rejected_with InvalidOptions) a5).
Proof.
  split.
  - intros w pre post db cmdObj res p c Htr Htag Hp Hc.
    destruct (answer_decides w pre post _ Htr) as [Hiff Hbad]; try discriminate.
    assert (Hans : answer_ok pre (EvRunCommand db cmdObj res) = rejected_with c res).
    { cbn. rewrite Htag, Hp. now destruct Hc as [[-> ->]|[[-> ->]|[-> ->]]]. }
    rewrite Hans in Hiff, Hbad. rewrite rejected_with_spec in Hiff.
    split; [exact Hiff|]. intros Hno.
    destruct Hbad as [Hnil (msg & Hmsg & _)]; [|eauto].
    destruct (rejected_with c res) eqn:E; [|reflexivity].
    now apply rejected_with_spec in E.
  - intros w Hret Hstop.
    destruct (passing_run w Hret) as [(conn & Hskip)
      |(conn & st & r1 & r2 & r3 & r4 & a0 & a1 & a2 & a3 & a4 & a5 & p1 & p2 & rset
        & a6 & a7 & a8 & a9 & Htr & A0 & A1 & A2 & A3 & A4 & A5 & _)].
    + rewrite Hskip in Hstop. cbn in Hstop. intuition discriminate.
    + exists conn, st, r1, r2, r3, r4, a0, a1, a2, a3, a4, a5.
      eexists. split; [exact Htr|]. auto 10.
Qed.

(** C2: checked with expectSuccess true, a command passes exactly when its
    reply reports success or is a failure with exactly SnapshotTooOld; any
    other failure throws.  In a run of the script this is how every snapshot
    read of the RoutersUpgraded and CompatibilityBumped phases is judged:
    the run goes on after such a reply and ends at any other, and a run that
    goes all the way has had the four batteries of these two phases answered
    that way. *)
Theorem success_or_snapshot_too_old :
  (forall (w : World) (s : St) (sessionDb : Database) (cmdObj : JSValue)
          (expectedCode : option Z),
     let res := w_runCommand w (trace s) sessionDb cmdObj in
     let r := runCommandAndVerifyResponse sessionDb cmdObj true expectedCode w s in
     (fst r = Returned tt <->
      ok res = true \/ (ok res = false /\ code res = Some SnapshotTooOld)) /\
     (ok res = false -> code res <> Some SnapshotTooOld ->
      exists msg, fst r = Threw msg)) /\
  (forall (w : World) (pre post : list Event) (db : Database) (cmdObj : JSValue)
          (res : Response) (p : Phase),
     trace (snd (run w)) = pre ++ EvRunCommand db cmdObj res :: post ->
     snapshot_tagged cmdObj = true ->
     phase_at pre = Some p ->
     p = RoutersUpgraded \/ p = CompatibilityBumped ->
     (post <> [] <->
      ok res = true \/ (ok res = false /\ code res = Some SnapshotTooOld)) /\
     (ok res = false -> code res <> Some SnapshotTooOld ->
      post = [] /\ exists msg, fst (run w) = Threw msg)) /\
  (forall w : World,
     fst (run w) = Returned tt ->
     In EvStop (trace (snd (run w))) ->
     exists before st p1 p2 rset a6 a7 a8 a9,
       trace (snd (run w)) = before ++ after_router_upgrade st p1 p2 rset a6 a7 a8 a9 /\
       battery_replies accepted a6 /\ battery_replies accepted a7 /\
       battery_replies accepted a8 /\ battery_replies accepted a9).
Proof.
  split; [|split].
  - intros w s sessionDb cmdObj expectedCode res r.
    destruct (runCommandAndVerifyResponse_run w s sessionDb cmdObj true expectedCode)
      as [[V H]|[V (msg & _ & H)]]; fold res in V; cbn [verdict] in V;
      subst r; rewrite H; cbn [fst].
    + apply accepted_spec in V. split; [tauto|]. intros Hok Hcode.
      destruct V as [V|[_ V]]; congruence.
    + split.
      * split; [discriminate|]. intros Hacc. apply accepted_spec in Hacc. congruence.
      * eauto.
  - intros w pre post db cmdObj res p Htr Htag Hp Hphase.
    destruct (answer_decides w pre post _ Htr) as [Hiff Hbad]; try discriminate.
    assert (Hans : answer_ok pre (EvRunCommand db cmdObj res) = accepted res).
    { cbn. rewrite Htag, Hp. now destruct Hphase as [->| ->]. }
    rewrite Hans in Hiff, Hbad. rewrite accepted_spec in Hiff.
    split; [exact Hiff|]. intros Hok Hcode.
    destruct Hbad as [Hnil (msg & Hmsg & _)]; [|eauto].
    destruct (accepted res) eqn:E; [|reflexivity].
    apply accepted_spec in E. destruct E as [E|[_ E]]; congruence.
  - intros w Hret Hstop.
    destruct (passing_run w Hret) as [(conn & Hskip)
      |(conn & st & r1 & r2 & r3 & r4 & a0 & a1 & a2 & a3 & a4 & a5 & p1 & p2 & rset
        & a6 & a7 & a8 & a9 & Htr & _ & _ & _ & _ & _ & _ & A6 & A7 & _ & A8 & A9)].
    + rewrite Hskip in Hstop. cbn in Hstop. intuition discriminate.
    + eexists. exists st, p1, p2, rset, a6, a7, a8, a9. split; [exact Htr|]. auto.
Qed.

(** C3: checked with expectSuccess false and an expected code, a command
    passes exactly when its reply is a failure with exactly that code; every
    other reply, a success included, throws. *)
Theorem failure_with_expected_code (w : World) (s : St) (sessionDb : Database)
    (cmdObj : JSValue) (expectedCode : Z) :
  let res := w_runCommand w (trace s) sessionDb cmdObj in
  let r := runCommandAndVerifyResponse sessionDb cmdObj false (Some expectedCode) w s in
  (fst r = Returned tt <-> ok res = false /\ code res = Some expectedCode) /\
  (ok res = true -> exists msg, fst r = Threw msg) /\
  (code res <> Some expectedCode -> exists msg, fst r = Threw msg).
Proof.
  intros res r.
  destruct (runCommandAndVerifyResponse_run w s sessionDb cmdObj false (Some expectedCode))
    as [[V H]|[V (msg & _ & H)]]; fold res in V; cbn [verdict] in V;
    fold (rejected_with expectedCode res) in V; subst r; rewrite H; cbn [fst].
  - apply rejected_with_spec in V. destruct V as [V1 V2].
    split; [tauto|]. split; congruence.
  - split; [|eauto]. split; [discriminate|].
    intros Hrej. apply rejected_with_spec in Hrej. congruence.
Qed.

Lemma verdict_false_iff (expectSuccess : bool) (expectedCode : option Z) (res : Response) :
  verdict expectSuccess expectedCode res = false <->
  (expectSuccess = false /\ ok res = true) \/
  (expectSuccess = false /\ ok res = false /\ code res <> expectedCode) \/
  (expectSuccess = true /\ ok res = false /\ code res <> Some SnapshotTooOld).
Proof.
  unfold verdict, accepted.
  destruct expectSuccess, (ok res); cbn [negb andb orb];
    rewrite <- ?not_true_iff_false, ?code_eqb_eq; intuition congruence.
Qed.

(** C6: a reply the verifier does not accept (a success where failure was
    expected, a failure with another code than the expected one, a failure
    other than SnapshotTooOld where success was expected) makes it throw at
    once: the command has been sent exactly once, nothing else has happened,
    and the message contains the printed command.  In a run of the script
    the event of such a reply is the last one, and the run ended with that
    message. *)
Theorem mismatch_is_fatal :
  (forall (w : World) (s : St) (sessionDb : Database) (cmdObj : JSValue)
          (expectSuccess : bool) (expectedCode : option Z),
     let res := w_runCommand w (trace s) sessionDb cmdObj in
     (expectSuccess = false /\ ok res = true) \/
     (expectSuccess = false /\ ok res = false /\ code res <> expectedCode) \/
     (expectSuccess = true /\ ok res = false /\ code res <> Some SnapshotTooOld) ->
     exists before after,
       runCommandAndVerifyResponse sessionDb cmdObj expectSuccess expectedCode w s
       = (Threw (Some (before ++ tojson cmdObj ++ after)%string),
          {| txnNumber := txnNumber s;
             trace := trace s ++ [EvRunCommand sessionDb cmdObj res] |})) /\
  (forall (w : World) (pre post : list Event) (db : Database) (cmdObj : JSValue)
          (res : Response),
     trace (snd (run w)) = pre ++ EvRunCommand db cmdObj res :: post ->
     snapshot_tagged cmdObj = true ->
     answer_ok pre (EvRunCommand db cmdObj res) = false ->
     post = [] /\
     exists before after,
       fst (run w) = Threw (Some (before ++ tojson cmdObj ++ after)%string)).
Proof.
  split.
  - intros w s sessionDb cmdObj expectSuccess expectedCode res Hbad.
    apply verdict_false_iff in Hbad.
    destruct (runCommandAndVerifyResponse_run w s sessionDb cmdObj expectSuccess expectedCode)
      as [[V H]|[V (msg & (before & after & ->) & H)]]; fold res in V; [congruence|].
    exists before, after. exact H.
  - intros w pre post db cmdObj res Htr Htag Hbad.
    destruct (answer_decides w pre post _ Htr) as [_ H]; try discriminate.
    destruct (H Hbad) as [-> (msg & Hmsg & Hname)]. split; [reflexivity|].
    destruct (Hname Htag) as (before & after & ->). eauto.
Qed.

(** C5: a battery sends its reads in a fixed order: a find of everything on
    the unsharded collection, a find with filter {x: 1} on the sharded
    collection, and a find of everything on the same sharded collection,
    each with snapshot read concern and the next value of the counter.  The
    first is always sent; each further one is sent exactly when the verifier
    accepts the reply to the one before, the reply being what the cluster
    answers to that command at that moment.  So a battery none of whose
    replies is rejected sends exactly these three reads and returns, and a
    battery returns only then; otherwise it throws at the first rejected
    reply.  However the sharded collection is split, the second read can
    only return documents of the one partition that holds x = 1, and the
    third may return documents of every partition. *)
Theorem battery_issues_three_reads (w : World) (s : St) (conn : Conn)
    (expectSuccess : bool) (expectedCode : option Z) :
  let r := verifyGlobalSnapshotReads conn expectSuccess expectedCode w s in
  let v := verdict expectSuccess expectedCode in
  let n := txnNumber s in
  let c1 := findUnsharded n in
  let c2 := findShardedOneShard (n + 1) in
  let c3 := findShardedAllShards (n + 2) in
  let sess := w_startSession w (trace s) conn noCausalConsistency in
  let e0 := EvStartSession conn noCausalConsistency sess in
  let r1 := w_runCommand w (trace s ++ [e0]) (SessionDb sess "unshardedDb") c1 in
  let e1 := EvRunCommand (SessionDb sess "unshardedDb") c1 r1 in
  let r2 := w_runCommand w (trace s ++ [e0; e1]) (SessionDb sess "shardedDb") c2 in
  let e2 := EvRunCommand (SessionDb sess "shardedDb") c2 r2 in
  let r3 := w_runCommand w (trace s ++ [e0; e1; e2]) (SessionDb sess "shardedDb") c3 in
  let e3 := EvRunCommand (SessionDb sess "shardedDb") c3 r3 in
  snapshot_find "unsharded" JSUndefined n c1 /\
  snapshot_find "sharded" (JSObject [("x", JSNumber 1)]) (n + 1) c2 /\
  snapshot_find "sharded" JSUndefined (n + 2) c3 /\
  trace (snd r) =
    trace s ++ e0 :: firstn (if v r1 then if v r2 then 3 else 2 else 1) [e1; e2; e3] /\
  (fst r = Returned tt <-> v r1 = true /\ v r2 = true /\ v r3 = true) /\
  (fst r <> Returned tt -> exists msg, fst r = Threw msg) /\
  (forall splits i, targets splits c2 i <-> i = partition_of splits 1) /\
  (forall splits x, targets splits c3 (partition_of splits x)).
Proof.
  intros r v n c1 c2 c3 sess e0 r1 e1 r2 e2 r3 e3.
  split; [repeat split|]. split; [repeat split|]. split; [repeat split|].
  destruct (verifyGlobalSnapshotReads_exact w s conn expectSuccess expectedCode)
    as (Htr & Hret & Hthrow).
  split; [exact Htr|]. split; [exact Hret|]. split; [exact Hthrow|].
  split.
  - intros splits i. split.
    + intros (x & Hp & Hx). change ((x =? 1) = true) in Hx.
      apply Z.eqb_eq in Hx. subst x. symmetry. exact Hp.
    + intros ->. exists 1. split; reflexivity.
  - intros splits x. exists x. split; reflexivity.
Qed.

(** C8: a battery first opens a session on the router it was given, with
    causal consistency switched off; the session is the one this very call
    returns.  Every command the battery sends goes to a database of that
    session, and so does the reply it reads.  The first command is always
    sent; the second and the third are sent through the same session
    exactly when the verifier accepts the reply before.  So all three reads
    of a battery none of whose replies is rejected go through its session,
    and a battery returns only after three such reads. *)
Theorem battery_uses_its_own_session (w : World) (s : St) (conn : Conn)
    (expectSuccess : bool) (expectedCode : option Z) :
  let r := verifyGlobalSnapshotReads conn expectSuccess expectedCode w s in
  let v := verdict expectSuccess expectedCode in
  let n := txnNumber s in
  exists options sess cmds,
    trace (snd r) = trace s ++ EvStartSession conn options sess :: cmds /\
    get_field "causalConsistency" options = JSBool false /\
    sess = w_startSession w (trace s) conn options /\
    Forall (fun e => exists name cmdObj res,
                       e = EvRunCommand (SessionDb sess name) cmdObj res) cmds /\
    let e0 := EvStartSession conn options sess in
    let db1 := SessionDb sess "unshardedDb" in
    let db2 := SessionDb sess "shardedDb" in
    let r1 := w_runCommand w (trace s ++ [e0]) db1 (findUnsharded n) in
    let e1 := EvRunCommand db1 (findUnsharded n) r1 in
    let r2 := w_runCommand w (trace s ++ [e0; e1]) db2 (findShardedOneShard (n + 1)) in
    let e2 := EvRunCommand db2 (findShardedOneShard (n + 1)) r2 in
    let r3 := w_runCommand w (trace s ++ [e0; e1; e2]) db2 (findShardedAllShards (n + 2)) in
    let e3 := EvRunCommand db2 (findShardedAllShards (n + 2)) r3 in
    cmds = firstn (if v r1 then if v r2 then 3 else 2 else 1) [e1; e2; e3] /\
    (List.length cmds = 3%nat <-> v r1 = true /\ v r2 = true) /\
    (fst r = Returned tt <-> v r1 = true /\ v r2 = true /\ v r3 = true) /\
    (fst r <> Returned tt -> exists msg, fst r = Threw msg).
Proof.
  intros r v n.
  destruct (verifyGlobalSnapshotReads_exact w s conn expectSuccess expectedCode)
    as (Htr & Hret & Hthrow).
  exists noCausalConsistency, (w_startSession w (trace s) conn noCausalConsistency).
  eexists. split; [exact Htr|]. split; [reflexivity|]. split; [reflexivity|].
  split.
  - fold v n. destruct (v _); [destruct (v _)|]; cbn [firstn]; repeat constructor; eauto.
  - cbv zeta. split; [reflexivity|]. split; [|split; [exact Hret | exact Hthrow]].
    fold v n. destruct (v _); [destruct (v _)|]; cbn [firstn List.length].
    + tauto.
    + split; [discriminate | intros (_ & F); discriminate F].
    + split; [discriminate | intros (F & _); discriminate F].
Qed.

(** ** The counter along the script *)

Lemma txn_call {A : Type} (w : World) (k : nat)
    (answer : World -> list Event -> A) (ev : A -> Event) :
  (forall a, txn_of (ev a) = None) ->
  triple w (TxnAt k) (call answer ev) (fun _ => TxnAt k) (fun _ s => exists j, TxnAt j s).
Proof.
  intros Hev. apply triple_call. intros a s [Hids Hn]. split; cbn [log_event trace txnNumber].
  - rewrite txn_ids_app. cbn. rewrite Hev, Hids. apply app_nil_r.
  - exact Hn.
Qed.

Lemma txn_assert_commandWorked (w : World) (k : nat) (res : Response) (msg : option string) :
  triple w (TxnAt k) (assert_commandWorked res msg) (fun _ => TxnAt k)
    (fun _ s => exists j, TxnAt j s).
Proof.
  intros s H. unfold assert_commandWorked, lands.
  destruct (ok res); cbn; eauto.
Qed.

Lemma txn_checkFCV (w : World) (k : nat) (db : Database) (version : string) :
  triple w (TxnAt k) (checkFCV db version) (fun _ => TxnAt k)
    (fun _ s => exists j, TxnAt j s).
Proof.
  unfold checkFCV. eapply triple_bind; [apply txn_call; reflexivity|].
  intros marker s H. unfold lands. destruct (String.eqb marker version); cbn; eauto.
Qed.

Lemma txn_let_txnNumber (w : World) :
  triple w (TxnAt 0) (let_txnNumber 0) (fun _ => TxnAt 0) (fun _ s => exists j, TxnAt j s).
Proof. intros s [Hids _]. split; [exact Hids | reflexivity]. Qed.

Lemma txn_battery (w : World) (k : nat) (conn : Conn)
    (expectSuccess : bool) (expectedCode : option Z) :
  triple w (TxnAt k) (verifyGlobalSnapshotReads conn expectSuccess expectedCode)
    (fun _ => TxnAt (3 + k)) (fun _ s => exists j, TxnAt j s).
Proof.
  intros s [Hids Hn].
  destruct (verifyGlobalSnapshotReads_run w s conn expectSuccess expectedCode)
    as (r1 & r2 & r3 & H). cbv zeta in H. unfold battery_events in H.
  assert (H1 : counting k ++ [txnNumber s] = counting (1 + k))
    by (rewrite Hn; symmetry; apply counting_S).
  assert (H2 : counting (1 + k) ++ [txnNumber s + 1] = counting (2 + k)).
  { rewrite Hn. replace (Z.of_nat k + 1) with (Z.of_nat (1 + k)) by lia.
    symmetry; apply counting_S. }
  assert (H3 : counting (2 + k) ++ [txnNumber s + 2] = counting (3 + k)).
  { rewrite Hn. replace (Z.of_nat k + 2) with (Z.of_nat (2 + k)) by lia.
    symmetry; apply counting_S. }
  unfold lands.
  destruct H as [(_ & (m & -> & _) & ->)
              |[(_ & _ & (m & -> & _) & ->)
              |[(_ & _ & _ & (m & -> & _) & ->)
              |(_ & _ & _ & -> & ->)]]]; cbn [firstn].
  - exists (1 + k)%nat. split; cbn [trace txnNumber]; [|lia].
    rewrite txn_ids_app, Hids. cbn. exact H1.
  - exists (2 + k)%nat. split; cbn [trace txnNumber]; [|lia].
    rewrite txn_ids_app, Hids. cbn.
    change [txnNumber s; txnNumber s + 1] with ([txnNumber s] ++ [txnNumber s + 1]).
    now rewrite app_assoc, H1.
  - exists (3 + k)%nat. split; cbn [trace txnNumber]; [|lia].
    rewrite txn_ids_app, Hids. cbn.
    change [txnNumber s; txnNumber s + 1; txnNumber s + 2]
      with ([txnNumber s] ++ [txnNumber s + 1] ++ [txnNumber s + 2]).
    now rewrite !app_assoc, H1, H2.
  - split; cbn [trace txnNumber]; [|lia].
    rewrite txn_ids_app, Hids. cbn.
    change [txnNumber s; txnNumber s + 1; txnNumber s + 2]
      with ([txnNumber s] ++ [txnNumber s + 1] ++ [txnNumber s + 2]).
    now rewrite !app_assoc, H1, H2.
Qed.

Ltac txn_step :=
  lazymatch goal with
  | |- triple _ _ (bind (call _ _) _) _ _ =>
      eapply triple_bind; [ eapply txn_call; intros; reflexivity | intro; cbv beta ]
  | |- triple _ _ (bind (assert_commandWorked _ _) _) _ _ =>
      eapply triple_bind; [ apply txn_assert_commandWorked | intro; cbv beta ]
  | |- triple _ _ (bind (let_txnNumber _) _) _ _ =>
      eapply triple_bind; [ apply txn_let_txnNumber | intro; cbv beta ]
  | |- triple _ _ (bind (checkFCV _ _) _) _ _ =>
      eapply triple_bind; [ apply txn_checkFCV | intro; cbv beta ]
  | |- triple _ _ (bind (verifyGlobalSnapshotReads _ _ _) _) _ _ =>
      eapply triple_bind; [ apply txn_battery | intro; cbv beta ]
  end.

Lemma script_counts (w : World) :
  triple w (TxnAt 0) global_snapshot_reads_upgrade_cluster
    (fun _ s => TxnAt 0 s \/ TxnAt 30 s) (fun _ s => exists j, TxnAt j s).
Proof.
  unfold global_snapshot_reads_upgrade_cluster. open_shell. unfold runCommand.
  do 3 txn_step.
  match goal with b : bool |- _ => destruct b end; cbn [negb].
  2:{ eapply triple_weaken; [apply (txn_call w 0); reflexivity | | |]; cbv beta; auto. }
  repeat txn_step.
  eapply triple_weaken; [apply (txn_call w 30); reflexivity | | |]; cbv beta; auto.
Qed.

Lemma counting_sorted (k : nat) : StronglySorted Z.lt (counting k).
Proof.
  unfold counting. generalize 0%nat. induction k as [|k IH]; intros a; cbn.
  - constructor.
  - constructor; [apply IH|].
    apply Forall_forall. intros x Hx. apply in_map_iff in Hx as (y & <- & Hy).
    apply in_seq in Hy. lia.
Qed.

Lemma sorted_NoDup (l : list Z) : StronglySorted Z.lt l -> NoDup l.
Proof.
  induction 1 as [|x l _ IH Hx]; constructor; [|exact IH].
  intros Hin. rewrite Forall_forall in Hx. specialize (Hx x Hin). lia.
Qed.

(** C4: in any run, finished or cut short, the transaction numbers the
    script has sent are 0, 1, 2, ... in the order of sending, up to the
    counter: they strictly increase and none occurs twice.  A battery that
    returns has advanced the counter by exactly three (in any case by at
    least one and at most three), two batteries in a row by six, and a run
    that goes through all five phases ends with the counter at thirty. *)
Theorem transaction_numbers_never_repeat :
  (forall w : World,
     let s := snd (run w) in
     exists k : nat,
       txn_ids (trace s) = counting k /\ txnNumber s = Z.of_nat k /\
       StronglySorted Z.lt (txn_ids (trace s)) /\ NoDup (txn_ids (trace s)) /\
       (fst (run w) = Returned tt -> k = 0%nat \/ k = 30%nat)) /\
  (forall (w : World) (s : St) (conn : Conn) (expectSuccess : bool)
          (expectedCode : option Z),
     let r := verifyGlobalSnapshotReads conn expectSuccess expectedCode w s in
     (fst r = Returned tt -> txnNumber (snd r) = txnNumber s + 3) /\
     txnNumber s < txnNumber (snd r) <= txnNumber s + 3) /\
  (forall (w : World) (s : St) (conn0 conn1 : Conn) (expectSuccess : bool)
          (expectedCode : option Z),
     let r := (verifyGlobalSnapshotReads conn0 expectSuccess expectedCode ;;
               verifyGlobalSnapshotReads conn1 expectSuccess expectedCode) w s in
     fst r = Returned tt -> txnNumber (snd r) = txnNumber s + 6).
Proof.
  assert (Hbat : forall (w : World) (s : St) (conn : Conn) (expectSuccess : bool)
                        (expectedCode : option Z),
            let r := verifyGlobalSnapshotReads conn expectSuccess expectedCode w s in
            (fst r = Returned tt -> txnNumber (snd r) = txnNumber s + 3) /\
            txnNumber s < txnNumber (snd r) <= txnNumber s + 3).
  { intros w s conn expectSuccess expectedCode r.
    destruct (verifyGlobalSnapshotReads_run w s conn expectSuccess expectedCode)
      as (r1 & r2 & r3 & H). fold r in H. cbv zeta in H.
    destruct H as [(_ & (m & Hm & _) & ->)
                |[(_ & _ & (m & Hm & _) & ->)
                |[(_ & _ & _ & (m & Hm & _) & ->)
                |(_ & _ & _ & Hm & ->)]]];
      rewrite Hm; cbn [txnNumber]; (split; [try discriminate; reflexivity | lia]). }
  split; [|split; [exact Hbat|]].
  - intros w s.
    pose proof (script_counts w init (conj eq_refl eq_refl)) as H.
    fold (run w) in H. unfold lands in H.
    assert (Hk : exists k, TxnAt k s /\ (fst (run w) = Returned tt -> k = 0%nat \/ k = 30%nat)).
    { subst s. destruct (fst (run w)) as [[]|msg].
      - destruct H as [H|H]; eauto.
      - destruct H as [j H]. exists j. split; [exact H | discriminate]. }
    destruct Hk as (k & [Hids Hn] & Hret). exists k.
    rewrite Hids. repeat split; auto using counting_sorted, sorted_NoDup.
  - intros w s conn0 conn1 expectSuccess expectedCode r Hret. subst r.
    unfold bind in *.
    destruct (Hbat w s conn0 expectSuccess expectedCode) as [H0 _].
    destruct (verifyGlobalSnapshotReads conn0 expectSuccess expectedCode w s)
      as [[[]|m] s']; cbn [fst snd] in *; [|discriminate].
    destruct (Hbat w s' conn1 expectSuccess expectedCode) as [H1 _].
    rewrite (H1 Hret), (H0 eq_refl). lia.
Qed.

(** ** The trace only grows *)

Lemma extends_ret {A : Type} (a : A) : extends (ret a).
Proof. intros w s. exists []. symmetry. apply app_nil_r. Qed.

Lemma extends_doassert {A : Type} (msg : option string) : extends (@doassert A msg).
Proof. intros w s. exists []. symmetry. apply app_nil_r. Qed.

Lemma extends_call {A : Type} (answer : World -> list Event -> A) (ev : A -> Event) :
  extends (call answer ev).
Proof. intros w s. eexists. reflexivity. Qed.

Lemma extends_let_txnNumber (n : Z) : extends (let_txnNumber n).
Proof. intros w s. exists []. symmetry. apply app_nil_r. Qed.

Lemma extends_postincr : extends txnNumber_postincr.
Proof. intros w s. exists []. symmetry. apply app_nil_r. Qed.

Lemma extends_bind {A B : Type} (m : M A) (f : A -> M B) :
  extends m -> (forall a, extends (f a)) -> extends (bind m f).
Proof.
  intros Hm Hf w s. destruct (Hm w s) as [more Hmore]. unfold bind.
  destruct (m w s) as [[a|msg] s']; cbn [snd] in *.
  - destruct (Hf a w s') as [more' Hmore']. exists (more ++ more').
    now rewrite Hmore', Hmore, app_assoc.
  - eauto.
Qed.

Lemma extends_if {A : Type} (b : bool) (m1 m2 : M A) :
  extends m1 -> extends m2 -> extends (if b then m1 else m2).
Proof. now destruct b. Qed.

Ltac prove_extends :=
  repeat first
    [ apply extends_bind; [|intro]
    | apply extends_if
    | apply extends_call
    | apply extends_ret
    | apply extends_doassert
    | apply extends_let_txnNumber
    | apply extends_postincr ].

Lemma extends_runCommandAndVerifyResponse (sessionDb : Database) (cmdObj : JSValue)
    (expectSuccess : bool) (expectedCode : option Z) :
  extends (runCommandAndVerifyResponse sessionDb cmdObj expectSuccess expectedCode).
Proof.
  unfold runCommandAndVerifyResponse, runCommand, assert_eq, assert_commandWorked,
    assert_commandFailedWithCode. prove_extends.
Qed.

Lemma extends_verifyGlobalSnapshotReads (conn : Conn) (expectSuccess : bool)
    (expectedCode : option Z) :
  extends (verifyGlobalSnapshotReads conn expectSuccess expectedCode).
Proof.
  unfold verifyGlobalSnapshotReads, startSession.
  repeat first [ apply extends_runCommandAndVerifyResponse | progress prove_extends ].
Qed.

Lemma extends_checkFCV (db : Database) (version : string) : extends (checkFCV db version).
Proof. unfold checkFCV. prove_extends. Qed.

Ltac prove_extends_script :=
  open_shell; unfold runCommand, assert_commandWorked;
  repeat first
    [ apply extends_verifyGlobalSnapshotReads
    | apply extends_checkFCV
    | progress prove_extends ].

(** C9: every run begins with the probe of a standalone server, before
    anything touches a cluster; when the probe reports no support for
    snapshot read concern, the run logs that it skips the test and returns:
    its whole trace is the probe and that log line, with no cluster event in
    it (no cluster provisioned, no data seeded, no battery run). *)
Theorem probe_guards_the_run (w : World) :
  let conn := w_runMongod w [] in
  let supports :=
    w_supportsSnapshotReadConcern w [EvRunMongod conn] (ConnDb conn "test") in
  (exists rest,
     trace (snd (run w)) = probe_events conn supports ++ rest /\
     (supports = true -> rest <> [])) /\
  (supports = false ->
   run w = (Returned tt,
            {| txnNumber := 0;
               trace := probe_events conn false ++
                 [EvLog "Skipping test since storage engine doesn't support snapshot read concern."] |}) /\
   Forall (fun e => cluster_event e = false) (trace (snd (run w)))).
Proof.
  intros conn supports.
  unfold run, global_snapshot_reads_upgrade_cluster.
  unfold MongoRunner_runMongod, serverStatus_supportsSnapshotReadConcern,
    MongoRunner_stopMongod.
  rewrite !bind_call. cbn [init trace log_event app]. fold conn. fold supports.
  destruct supports eqn:Hs; cbn [negb].
  - split; [|discriminate].
    unfold new_ShardingTest. rewrite bind_let_txnNumber, bind_call.
    cbn [trace log_event app].
    match goal with |- context [snd (?k w ?s)] =>
      assert (Hext : extends k) by prove_extends_script;
      destruct (Hext w s) as [more Hmore]; rewrite Hmore
    end.
    cbn [trace app]. eexists. split; [reflexivity | discriminate].
  - split.
    + eexists. split; [reflexivity | discriminate].
    + intros _. split; [reflexivity|]. cbn. repeat constructor.
Qed.

(** C7: a run that gets as far as opening a session has, before that,
    started the cluster at the last stable version (no node group upgraded),
    split the sharded collection at x = 0, and inserted {x: 1} into the
    unsharded collection and {x: -1}, {x: 1} into the sharded one; its first
    read is a snapshot find on the unsharded collection, and the run goes on
    after it exactly when the reply is a failure with FailedToParse. *)
Theorem old_version_read_must_fail_to_parse (w : World) :
  (exists conn options sess, In (EvStartSession conn options sess) (trace (snd (run w)))) ->
  exists conn st r1 r2 r3 r4 sess cmdObj res rest,
    trace (snd (run w)) =
      setup_events conn st r1 r2 r3 r4 ++
      EvStartSession (st_s0 st) noCausalConsistency sess ::
      EvRunCommand (SessionDb sess "unshardedDb") cmdObj res :: rest /\
    phase_at (setup_events conn st r1 r2 r3 r4) = Some OldVersion /\
    snapshot_find "unsharded" JSUndefined 0 cmdObj /\
    (rest <> [] <-> ok res = false /\ code res = Some FailedToParse) /\
    (~ (ok res = false /\ code res = Some FailedToParse) ->
     exists msg, fst (run w) = Threw msg).
Proof.
  pattern (run w). match goal with |- ?P _ => set (G := P) end.
  unfold run, global_snapshot_reads_upgrade_cluster. open_shell. unfold runCommand.
  assert (early : forall (o : Outcome unit) (n : Z) (t : list Event),
            Forall (fun e => match e with EvStartSession _ _ _ => False | _ => True end) t ->
            G (o, {| txnNumber := n; trace := t |})).
  { intros o n t Ht (c & opts & ss & Hin). cbn [snd trace] in Hin.
    rewrite Forall_forall in Ht. destruct (Ht _ Hin). }
  apply exec_call; intros conn.
  apply exec_call; intros supports.
  apply exec_call; intros _.
  unfold log_event; cbn [trace txnNumber init app].
  destruct supports; cbn [negb].
  2:{ apply early. repeat constructor. }
  rewrite bind_let_txnNumber. cbn [trace].
  apply exec_call; intros st.
  apply exec_call; intros r1. unfold log_event; cbn [trace txnNumber app].
  apply exec_assert_commandWorked; [intros _; apply early; repeat constructor | intros _].
  apply exec_call; intros _.
  apply exec_call; intros r2. unfold log_event; cbn [trace txnNumber app].
  apply exec_assert_commandWorked; [intros _; apply early; repeat constructor | intros _].
  apply exec_call; intros r3. unfold log_event; cbn [trace txnNumber app].
  apply exec_assert_commandWorked; [intros _; apply early; repeat constructor | intros _].
  apply exec_call; intros r4. unfold log_event; cbn [trace txnNumber app].
  apply exec_assert_commandWorked; [intros _; apply early; repeat constructor | intros _].
  apply exec_call; intros _.
  apply exec_call; intros _.
  unfold log_event; cbn [trace txnNumber app].
  clear early. apply exec_battery. intros sess [o s'] (q1 & q2 & q3 & H).
  cbv zeta in H. unfold battery_events in H. cbn [fst snd trace txnNumber firstn app] in H.
  change (verdict false (Some FailedToParse) q1)
    with (rejected_with FailedToParse q1) in H. cbn [fst snd].
  assert (Hyes : rejected_with FailedToParse q1 = true ->
                 forall rest : list Event, rest <> [] ->
                 (rest <> [] <-> ok q1 = false /\ code q1 = Some FailedToParse) /\
                 (~ (ok q1 = false /\ code q1 = Some FailedToParse) ->
                  exists msg : option string, o = Threw msg)).
  { intros V rest Hrest. apply rejected_with_spec in V. tauto. }
  destruct H as [(V1 & (m & -> & _) & ->)
              |[(V1 & _ & (m & -> & _) & ->)
              |[(V1 & _ & _ & (m & -> & _) & ->)
              |(V1 & _ & _ & -> & ->)]]].
  - intros _. exists conn, st, r1, r2, r3, r4, sess, (findUnsharded 0), q1, [].
    split; [reflexivity|]. split; [reflexivity|]. split; [repeat split|].
    cbn [fst]. split; [|eauto]. split; [intros Hne; now contradiction Hne|].
    intros Hm. apply rejected_with_spec in Hm. congruence.
  - intros _. exists conn, st, r1, r2, r3, r4, sess, (findUnsharded 0), q1.
    eexists. split; [reflexivity|]. split; [reflexivity|]. split; [repeat split|].
    cbn [fst]. apply (Hyes V1). discriminate.
  - intros _. exists conn, st, r1, r2, r3, r4, sess, (findUnsharded 0), q1.
    eexists. split; [reflexivity|]. split; [reflexivity|]. split; [repeat split|].
    cbn [fst]. apply (Hyes V1). discriminate.
  - match goal with |- G (?k w ?s) =>
      assert (Hext : extends k) by prove_extends_script;
      destruct (Hext w s) as [more Hmore]
    end.
    intros _. exists conn, st, r1, r2, r3, r4, sess, (findUnsharded 0), q1.
    eexists. split; [rewrite Hmore; reflexivity|].
    split; [reflexivity|]. split; [repeat split|].
    apply rejected_with_spec in V1. split; [|tauto].
    split; [tauto | discriminate].
Qed.

(** ** The compatibility marker *)

Lemma placement (w : World) (pre post : list Event) (e : Event) :
  trace (snd (run w)) = pre ++ e :: post -> placed_ok pre e = true.
Proof.
  intros Htr. pose proof (run_verdict w) as H. unfold lands in H.
  destruct (run w) as [[[]|msg] s]; cbn [fst snd] in *.
  - destruct H as (_ & HL & _). eapply HL; eassumption.
  - destruct H as (t & e' & _ & _ & _ & _ & HL). eapply HL; eassumption.
Qed.

Lemma placed_before (w : World) (pre post : list Event) :
  trace (snd (run w)) = pre ++ post -> Placed pre.
Proof.
  intros Htr pre' e post' ->. apply (placement w pre' (post' ++ post) e).
  now rewrite Htr, <- app_assoc.
Qed.

Lemma is_string_eq (x : string) (v : JSValue) : is_string x v = true -> v = JSString x.
Proof.
  destruct v; cbn; try discriminate. intros H. apply String.eqb_eq in H. now subst.
Qed.

Lemma fcvBumped_step (c : Cluster) (e : Event) :
  fcvBumped (cluster_step c e) = true ->
  fcvBumped c = true \/
  exists db cmdObj res,
    e = EvRunCommand db cmdObj res /\
    has_field "setFeatureCompatibilityVersion" cmdObj = true /\ ok res = true.
Proof.
  destruct e; cbn; auto.
  - destruct (has_field _ cmdObj) eqn:Hf, (ok res) eqn:Hok; cbn; eauto 10.
  - destruct (String.eqb binVersion "latest"); cbn; auto.
Qed.

(** The marker counts as bumped only after a successful command that set
    the compatibility version, and the script only ever sets the latest. *)
Lemma bumped_by_setFCV (t : list Event) :
  Placed t ->
  fcvBumped (cluster_after t) = true ->
  exists db cmdObj res,
    In (EvRunCommand db cmdObj res) t /\
    get_field "setFeatureCompatibilityVersion" cmdObj = JSString latestFCV /\
    ok res = true.
Proof.
  induction t as [|e t IH] using rev_ind; [discriminate|].
  intros HL Hb. apply Placed_snoc in HL as [HL He].
  rewrite cluster_after_snoc in Hb.
  destruct (fcvBumped_step _ _ Hb) as [Hb'|(db & cmdObj & res & -> & Hf & Hok)].
  - destruct (IH HL Hb') as (db & cmdObj & res & Hin & H).
    exists db, cmdObj, res. split; [apply in_or_app; now left | exact H].
  - exists db, cmdObj, res. split; [apply in_or_app; right; now left|].
    cbn in He. rewrite Hf in He. split; [now apply is_string_eq | exact Hok].
Qed.

(** While the marker does not count as bumped, no command that set the
    compatibility version has succeeded. *)
Lemma not_bumped_no_setFCV (t : list Event) (db : Database) (cmdObj : JSValue) (res : Response) :
  fcvBumped (cluster_after t) = false ->
  In (EvRunCommand db cmdObj res) t ->
  has_field "setFeatureCompatibilityVersion" cmdObj = true ->
  ok res = false.
Proof.
  induction t as [|e t IH] using rev_ind; [intros _ []|].
  rewrite cluster_after_snoc. intros Hb Hin Hf.
  assert (Hb' : fcvBumped (cluster_after t) = false).
  { destruct (fcvBumped (cluster_after t)) eqn:E; [|reflexivity].
    rewrite <- Hb. destruct e; cbn; auto.
    - now destruct (has_field _ cmdObj0 && ok res0).
    - now destruct (String.eqb binVersion "latest"). }
  apply in_app_or in Hin as [Hin|[Heq|[]]]; [now apply IH|]. subst e.
  cbn in Hb. rewrite Hf in Hb. cbn in Hb.
  destruct (ok res); [discriminate | reflexivity].
Qed.

Lemma phase_bumped (t : list Event) :
  phase_at t = Some CompatibilityBumped -> fcvBumped (cluster_after t) = true.
Proof.
  unfold phase_at, phase_of.
  destruct (cluster_after t) as [[] [] [] []]; cbn; congruence.
Qed.

Lemma phase_not_bumped (t : list Event) :
  phase_at t = Some RoutersUpgraded -> fcvBumped (cluster_after t) = false.
Proof.
  unfold phase_at, phase_of.
  destruct (cluster_after t) as [[] [] [] []]; cbn; congruence.
Qed.

(** C10: in a run of the script the marker is read only once the routers
    are upgraded.  Read before any command that sets the compatibility
    version has succeeded, it must still be the last-stable value for the
    run to go on, and snapshot reads issued then are already accepted (a
    success, or SnapshotTooOld).  Read after the marker was bumped, which
    takes a successful setFeatureCompatibilityVersion to the latest value
    earlier in the run, it must be the latest value.  A run that goes all
    the way has done just this, in this order: upgraded the routers with the
    shards and config servers already upgraded, read the last-stable marker,
    had two batteries accepted, set the latest compatibility version, and
    only then read the latest marker. *)
Theorem marker_old_until_bumped :
  (forall (w : World) (pre post : list Event) (db : Database) (version : string),
     trace (snd (run w)) = pre ++ EvGetFCV db version :: post ->
     (phase_at pre = Some RoutersUpgraded /\
      (post <> [] <-> version = lastStableFCV) /\
      (version <> lastStableFCV -> exists msg, fst (run w) = Threw msg) /\
      (forall db' cmdObj res,
         In (EvRunCommand db' cmdObj res) pre ->
         has_field "setFeatureCompatibilityVersion" cmdObj = true -> ok res = false))
     \/
     (phase_at pre = Some CompatibilityBumped /\
      (post <> [] <-> version = latestFCV) /\
      (version <> latestFCV -> exists msg, fst (run w) = Threw msg) /\
      (exists db' cmdObj res,
         In (EvRunCommand db' cmdObj res) pre /\
         get_field "setFeatureCompatibilityVersion" cmdObj = JSString latestFCV /\
         ok res = true))) /\
  (forall (w : World) (pre post : list Event) (db : Database) (cmdObj : JSValue)
          (res : Response),
     trace (snd (run w)) = pre ++ EvRunCommand db cmdObj res :: post ->
     snapshot_tagged cmdObj = true ->
     phase_at pre = Some RoutersUpgraded ->
     (post <> [] <->
      ok res = true \/ (ok res = false /\ code res = Some SnapshotTooOld))) /\
  (forall w : World,
     fst (run w) = Returned tt ->
     In EvStop (trace (snd (run w))) ->
     exists before st p1 p2 rset a6 a7 a8 a9,
       trace (snd (run w)) = before ++ after_router_upgrade st p1 p2 rset a6 a7 a8 a9 /\
       phase_at before = Some ShardsUpgraded /\
       battery_replies accepted a6 /\ battery_replies accepted a7 /\
       ok rset = true).
Proof.
  split; [|split].
  - intros w pre post db version Htr.
    pose proof (placement w _ _ _ Htr) as Hpl. cbn in Hpl.
    destruct (answer_decides w pre post _ Htr) as [Hiff Hbad]; try discriminate.
    assert (Hpre : Placed pre) by (eapply placed_before; eassumption).
    assert (Hthrow : forall m : string,
              answer_ok pre (EvGetFCV db version) = String.eqb version m ->
              version <> m -> exists msg, fst (run w) = Threw msg).
    { intros m Hans Hne. rewrite Hans in Hbad.
      destruct Hbad as [_ (msg & Hmsg & _)]; [|eauto].
      now apply String.eqb_neq. }
    cbn in Hiff, Hthrow.
    destruct (phase_at pre) as [[]|] eqn:Hp; try discriminate; [left|right];
      cbn [marker_of] in Hiff, Hthrow; rewrite String.eqb_eq in Hiff;
      (split; [reflexivity|]); (split; [exact Hiff|]); (split; [now apply Hthrow|]).
    + intros db' cmdObj res. apply not_bumped_no_setFCV. now apply phase_not_bumped.
    + apply bumped_by_setFCV; [exact Hpre | now apply phase_bumped].
  - intros w pre post db cmdObj res Htr Htag Hp.
    destruct (answer_decides w pre post _ Htr) as [Hiff _]; try discriminate.
    cbn in Hiff. rewrite Htag, Hp in Hiff. cbn in Hiff.
    now rewrite accepted_spec in Hiff.
  - intros w Hret Hstop.
    destruct (passing_run w Hret) as [(conn & Hskip)
      |(conn & st & r1 & r2 & r3 & r4 & a0 & a1 & a2 & a3 & a4 & a5 & p1 & p2 & rset
        & a6 & a7 & a8 & a9 & Htr & _ & _ & _ & _ & _ & _ & A6 & A7 & Hset & _)].
    + rewrite Hskip in Hstop. cbn in Hstop. intuition discriminate.
    + exists (before_router_upgrade conn st r1 r2 r3 r4 a0 a1 a2 a3 a4 a5),
        st, p1, p2, rset, a6, a7, a8, a9.
      split; [exact Htr|]. split; [reflexivity|]. auto.
Qed.

(** ** Every run follows the script's order *)

Lemma exec_battery_cut {B : Type} (conn : Conn) (expectSuccess : bool)
    (expectedCode : option Z) (f : unit -> M B) (w : World) (s : St)
    (G : Outcome B * St -> Prop) :
  (forall (a : BatteryAnswers) (msg : option string) (k : nat) (n : Z),
     (2 <= k <= 4)%nat ->
     G (Threw msg, {| txnNumber := n;
                      trace := trace s ++ firstn k (battery_trace conn (txnNumber s) a) |})) ->
  (forall a : BatteryAnswers,
     G (f tt w {| txnNumber := txnNumber s + 3;
                  trace := trace s ++ battery_trace conn (txnNumber s) a |})) ->
  G (bind (verifyGlobalSnapshotReads conn expectSuccess expectedCode) f w s).
Proof.
  intros Hthrow Hpass. apply exec_battery. intros sess [o s'] (q1 & q2 & q3 & H).
  cbv zeta in H. cbn [fst snd] in *.
  pose (a := {| b_session := sess; b_reply1 := q1; b_reply2 := q2; b_reply3 := q3 |}).
  destruct H as [(_ & (m & -> & _) & ->)
              |[(_ & _ & (m & -> & _) & ->)
              |[(_ & _ & _ & (m & -> & _) & ->)
              |(_ & _ & _ & -> & ->)]]].
  - apply (Hthrow a m 2%nat). lia.
  - apply (Hthrow a m 3%nat). lia.
  - apply (Hthrow a m 4%nat). lia.
  - apply (Hpass a).
Qed.

Ltac cut_here G r1 conn :=
  subst G; cbv beta; right;
  unshelve eexists (Build_ScriptAnswers _ _ _ _ _ _ _ _ _ _ _ _ _ _ _ _ _ _ _ _ _);
  [.. | eexists; cbn; reflexivity];
  first [ exact (Build_BatteryAnswers (MkSession 0) r1 r1 r1)
        | exact r1 | exact conn | exact EmptyString ].

Ltac cut_battery G r1 conn :=
  let a := fresh "a" in let msg := fresh "msg" in
  let k := fresh "k" in let n := fresh "n" in let Hk := fresh "Hk" in
  intros a msg k n Hk;
  destruct k as [|[|[|[|[|k]]]]]; try (exfalso; lia); cut_here G r1 conn.

(** The events of a run are the skip trace, or an initial segment of the
    script's calls in program order: no reply makes the script reorder,
    repeat or leave out a call; it can only cut the run short. *)
Lemma run_is_prefix (w : World) :
  (exists conn, trace (snd (run w)) = skip_events conn) \/
  (exists a rest, script_events a = trace (snd (run w)) ++ rest).
Proof.
  pattern (run w). match goal with |- ?P _ => set (G := P) end.
  unfold run, global_snapshot_reads_upgrade_cluster. open_shell. unfold runCommand.
  apply exec_call; intros conn.
  apply exec_call; intros supports.
  apply exec_call; intros _. exec_norm. cbn [init trace app].
  destruct supports; cbn [negb].
  2:{ left. eexists. reflexivity. }
  rewrite bind_let_txnNumber. cbn [trace].
  apply exec_call; intros st.
  apply exec_call; intros r1. exec_norm.
  apply exec_assert_commandWorked; [intros _; cut_here G r1 conn | intros _].
  apply exec_call; intros _.
  apply exec_call; intros r2. exec_norm.
  apply exec_assert_commandWorked; [intros _; cut_here G r1 conn | intros _].
  apply exec_call; intros r3. exec_norm.
  apply exec_assert_commandWorked; [intros _; cut_here G r1 conn | intros _].
  apply exec_call; intros r4. exec_norm.
  apply exec_assert_commandWorked; [intros _; cut_here G r1 conn | intros _].
  apply exec_call; intros _.
  apply exec_call; intros _. exec_norm.
  apply exec_battery_cut; [cut_battery G r1 conn | intros a0]. exec_norm.
  apply exec_battery_cut; [cut_battery G r1 conn | intros a1]. exec_norm.
  apply exec_call; intros _.
  apply exec_call; intros _. exec_norm.
  apply exec_battery_cut; [cut_battery G r1 conn | intros a2]. exec_norm.
  apply exec_battery_cut; [cut_battery G r1 conn | intros a3]. exec_norm.
  apply exec_call; intros _.
  apply exec_call; intros _. exec_norm.
  apply exec_battery_cut; [cut_battery G r1 conn | intros a4]. exec_norm.
  apply exec_battery_cut; [cut_battery G r1 conn | intros a5]. exec_norm.
  apply exec_call; intros _.
  apply exec_call; intros _.
  apply exec_call; intros p1. exec_norm.
  apply exec_checkFCV; [| intros marker; exec_norm; cut_here G r1 conn]. exec_norm.
  apply exec_battery_cut; [cut_battery G r1 conn | intros a6]. exec_norm.
  apply exec_battery_cut; [cut_battery G r1 conn | intros a7]. exec_norm.
  apply exec_call; intros rset. exec_norm.
  apply exec_assert_commandWorked; [intros _; cut_here G r1 conn | intros _].
  apply exec_call; intros p2. exec_norm.
  apply exec_checkFCV; [| intros marker; exec_norm; cut_here G r1 conn]. exec_norm.
  apply exec_battery_cut; [cut_battery G r1 conn | intros a8]. exec_norm.
  apply exec_battery_cut; [cut_battery G r1 conn | intros a9]. exec_norm.
  unfold call. exec_norm. cut_here G r1 conn.
Qed.

Lemma allP_All (f : list Event -> Event -> Prop) (l pre : list Event) :
  allP f pre l -> forall p e q, l = p ++ e :: q -> f (pre ++ p) e.
Proof.
  revert pre. induction l as [|x l IH]; intros pre H p e q Heq.
  - destruct p; discriminate.
  - destruct H as [Hx Hl]. destruct p as [|y p]; cbn in Heq; injection Heq as -> ->.
    + now rewrite app_nil_r.
    + specialize (IH _ Hl p e q eq_refl). now rewrite <- app_assoc in IH.
Qed.

(** What holds along the skip trace and along the script's calls, whatever
    the answers, holds along every run. *)
Lemma holds_along_run (f : list Event -> Event -> Prop) :
  (forall conn, allP f [] (skip_events conn)) ->
  (forall a, allP f [] (script_events a)) ->
  forall (w : World) (pre : list Event) (e : Event) (post : list Event),
    trace (snd (run w)) = pre ++ e :: post -> f pre e.
Proof.
  intros Hskip Hscript w pre e post Htr.
  destruct (run_is_prefix w) as [(conn & H)|(a & rest & H)].
  - apply (allP_All f _ [] (Hskip conn) pre e post). now rewrite <- H.
  - apply (allP_All f _ [] (Hscript a) pre e (post ++ rest)).
    now rewrite H, Htr, <- app_assoc.
Qed.

Ltac along_script :=
  intros [conn st r1 r2 r3 r4 a0 a1 a2 a3 a4 a5 p1 m1 a6 a7 [[|] cset] p2 m2 a8 a9];
  cbn; repeat split.

(** X1: every event of a run leaves the cluster in one of the five phases,
    the one it was in or the next one: the script never brings about a mix
    of versions outside the phase table and never goes back. *)
Theorem phases_only_move_forward (w : World) (pre post : list Event) :
  trace (snd (run w)) = pre ++ post ->
  exists p, phase_at pre = Some p /\
    forall e post', post = e :: post' ->
      phase_at (pre ++ [e]) = Some p \/ phase_at (pre ++ [e]) = Some (next_phase p).
Proof.
  assert (H : forall pre e post, trace (snd (run w)) = pre ++ e :: post ->
                steps_forward pre e).
  { apply holds_along_run.
    - intros conn. cbn. repeat split; now left.
    - along_script; first [now left | now right]. }
  intros Htr.
  assert (Hdef : exists p, phase_at pre = Some p).
  { destruct (snoc_cases pre) as [->|(pre' & x & ->)]; [now exists OldVersion|].
    rewrite <- app_assoc in Htr. specialize (H _ _ _ Htr). unfold steps_forward in H.
    destruct (phase_at pre'); [|contradiction].
    destruct (phase_at (pre' ++ [x])); [eauto | contradiction]. }
  destruct Hdef as [p Hp]. exists p. split; [exact Hp|].
  intros e post' ->. specialize (H _ _ _ Htr). unfold steps_forward in H.
  rewrite Hp in H. destruct (phase_at (pre ++ [e])); [|contradiction].
  destruct H as [-> | ->]; auto.
Qed.

(** X2: every upgrade call of a run asks for the latest binaries and names
    exactly one node group, the other two flags being false: the config
    servers when the cluster is in OldVersion, the shards when it is in
    ConfigsUpgraded, the routers when it is in ShardsUpgraded; there is no
    upgrade call in any other phase, and the call moves the cluster to the
    next phase.  So the groups are upgraded config servers first, then
    shards, then routers, one group per call. *)
Theorem upgrades_one_group_at_a_time (w : World) (pre post : list Event)
    (binVersion : string) (options : JSValue) :
  trace (snd (run w)) = pre ++ EvUpgradeCluster binVersion options :: post ->
  binVersion = "latest" /\
  ((phase_at pre = Some OldVersion /\
    options = JSObject [("upgradeConfigs", JSBool true);
                        ("upgradeMongos", JSBool false);
                        ("upgradeShards", JSBool false)] /\
    phase_at (pre ++ [EvUpgradeCluster binVersion options]) = Some ConfigsUpgraded)
   \/
   (phase_at pre = Some ConfigsUpgraded /\
    options = JSObject [("upgradeConfigs", JSBool false);
                        ("upgradeMongos", JSBool false);
                        ("upgradeShards", JSBool true)] /\
    phase_at (pre ++ [EvUpgradeCluster binVersion options]) = Some ShardsUpgraded)
   \/
   (phase_at pre = Some ShardsUpgraded /\
    options = JSObject [("upgradeConfigs", JSBool false);
                        ("upgradeMongos", JSBool true);
                        ("upgradeShards", JSBool false)] /\
    phase_at (pre ++ [EvUpgradeCluster binVersion options]) = Some RoutersUpgraded)).
Proof.
  intros Htr.
  assert (H : upgrade_in_order pre (EvUpgradeCluster binVersion options)).
  { revert Htr. apply holds_along_run.
    - intros conn. cbn. repeat split.
    - along_script. }
  destruct H as [Hv H]. split; [exact Hv|].
  unfold upgradeOptions in H.
  destruct (phase_at pre) as [[]|]; try contradiction; destruct H as [Ho Hp];
    [left | right; left | right; right]; repeat split; assumption.
Qed.

(** X3: in a run, sessions are opened only on the routers of the cluster
    the run provisioned, in turn: the first, third, fifth ... session on
    [st.s0], the second, fourth ... on [st.s1]. *)
Theorem sessions_alternate_between_routers (w : World) (pre post : list Event)
    (c : Conn) (options : JSValue) (sess : Session) :
  trace (snd (run w)) = pre ++ EvStartSession c options sess :: post ->
  exists st, provisioned pre = Some st /\
    c = if Nat.even (sessions_opened pre) then st_s0 st else st_s1 st.
Proof.
  intros Htr.
  assert (H : router_in_turn pre (EvStartSession c options sess)).
  { revert Htr. apply holds_along_run.
    - intros conn. cbn. repeat split.
    - along_script. }
  cbn in H. destruct (provisioned pre); [eauto | contradiction].
Qed.

(** X4: in a run, every snapshot read goes to the unsharded or the sharded
    database of the session opened last, never to an earlier session or
    straight to a connection; every other command goes to the admin
    database through [st.s]. *)
Theorem commands_take_their_route (w : World) (pre post : list Event)
    (db : Database) (cmdObj : JSValue) (res : Response) :
  trace (snd (run w)) = pre ++ EvRunCommand db cmdObj res :: post ->
  (snapshot_tagged cmdObj = true ->
   exists sess, last_session pre = Some sess /\
     (db = SessionDb sess "unshardedDb" \/ db = SessionDb sess "shardedDb")) /\
  (snapshot_tagged cmdObj = false ->
   exists st, provisioned pre = Some st /\ db = ConnDb (st_s st) "admin").
Proof.
  intros Htr.
  assert (H : command_route pre (EvRunCommand db cmdObj res)).
  { revert Htr. apply holds_along_run.
    - intros conn. cbn. repeat split.
    - along_script; auto. }
  cbn in H. destruct (snapshot_tagged cmdObj).
  - split; [|discriminate]. intros _.
    destruct (last_session pre); [eauto | contradiction].
  - split; [discriminate|]. intros _.
    destruct (provisioned pre); [eauto | contradiction].
Qed.

Lemma last_event_snoc (t : list Event) (e : Event) :
  last_event t = Some e -> exists t', t = t' ++ [e].
Proof.
  unfold last_event. intros H. destruct (rev t) as [|x r] eqn:E; [discriminate|].
  injection H as ->. exists (rev r). rewrite <- (rev_involutive t), E. reflexivity.
Qed.

(** X5: in a run, the marker is always read through the admin database of
    the config server primary that the call just before it returned: the
    script asks for the primary anew for each check. *)
Theorem marker_read_through_fresh_primary (w : World) (pre post : list Event)
    (db : Database) (version : string) :
  trace (snd (run w)) = pre ++ EvGetFCV db version :: post ->
  exists pre' primary, pre = pre' ++ [EvGetPrimary primary] /\ db = ConnDb primary "admin".
Proof.
  intros Htr.
  assert (H : marker_via_primary pre (EvGetFCV db version)).
  { revert Htr. apply holds_along_run.
    - intros conn. cbn. repeat split.
    - along_script. }
  cbn in H. destruct (last_event pre) as [[]|] eqn:E; try contradiction.
  destruct (last_event_snoc _ _ E) as [pre' ->]. eauto.
Qed.

Lemma fixture_first_along (w : World) (pre : list Event) (e : Event) (post : list Event) :
  trace (snd (run w)) = pre ++ e :: post -> fixture_first pre e.
Proof.
  apply holds_along_run.
  - intros conn. cbn. repeat split; unfold fixture_first; cbn; auto; discriminate.
  - along_script; unfold fixture_first; cbn; auto; discriminate.
Qed.

(** X6: in a run, the fixture is complete before the first session is
    opened: provisioning, the sharding set-up commands and the inserts all
    come before it, and nothing of the kind is sent afterwards. *)
Theorem fixture_built_before_reads (w : World) (pre post : list Event) (e : Event) :
  trace (snd (run w)) = pre ++ e :: post ->
  builds_fixture e = true ->
  sessions_opened pre = 0%nat.
Proof.
  intros Htr. exact (fixture_first_along w pre e post Htr).
Qed.

Lemma sessions_opened_app (t u : list Event) :
  sessions_opened (t ++ u) = (sessions_opened t + sessions_opened u)%nat.
Proof.
  induction t as [|e t IH]; [reflexivity|]. destruct e; cbn; now rewrite IH.
Qed.

(** X7: when a command that builds the fixture fails, the run throws there
    and then: the failed command is its last event, and no session has been
    opened, so not one snapshot read has been sent. *)
Theorem failed_fixture_command_stops_the_run (w : World) (pre post : list Event)
    (db : Database) (cmdObj : JSValue) (res : Response) :
  trace (snd (run w)) = pre ++ EvRunCommand db cmdObj res :: post ->
  builds_fixture (EvRunCommand db cmdObj res) = true ->
  ok res = false ->
  post = [] /\
  (exists msg, fst (run w) = Threw msg) /\
  sessions_opened (trace (snd (run w))) = 0%nat.
Proof.
  intros Htr Hfix Hok.
  pose proof (fixture_first_along w pre _ post Htr Hfix) as Hnone.
  cbn in Hfix. apply andb_true_iff in Hfix as [Htag _]. apply negb_true_iff in Htag.
  destruct (answer_decides w pre post _ Htr) as [_ Hbad]; try discriminate.
  destruct Hbad as [-> (msg & Hmsg & _)]; [cbn; now rewrite Htag|].
  split; [reflexivity|]. split; [eauto|].
  rewrite Htr, sessions_opened_app, Hnone. reflexivity.
Qed.

(** X8: in a run, the commands that carry a transaction number are exactly
    the snapshot reads, and each read carries the number of reads sent
    before it. *)
Theorem reads_are_numbered_in_order (w : World) (pre post : list Event)
    (db : Database) (cmdObj : JSValue) (res : Response) :
  trace (snd (run w)) = pre ++ EvRunCommand db cmdObj res :: post ->
  (snapshot_tagged cmdObj = true ->
   get_field "txnNumber" cmdObj = NumberLong (Z.of_nat (List.length (txn_ids pre)))) /\
  (snapshot_tagged cmdObj = false ->
   forall n, get_field "txnNumber" cmdObj <> NumberLong n).
Proof.
  intros Htr.
  assert (H : numbered_in_order pre (EvRunCommand db cmdObj res)).
  { revert Htr. apply holds_along_run.
    - intros conn. cbn. repeat split.
    - along_script. }
  cbn in H. destruct (snapshot_tagged cmdObj).
  - split; [|discriminate]. intros _.
    destruct (get_field "txnNumber" cmdObj); try discriminate. now injection H as ->.
  - split; [discriminate|]. intros _ n Hn. rewrite Hn in H. discriminate.
Qed.

Lemma stop_last_only {A : Type} (x : A) (body t1 t2 : list A) :
  ~ In x body -> t1 ++ x :: t2 = body ++ [x] -> t2 = [].
Proof.
  revert body. induction t1 as [|y t1 IH]; intros body Hnot Heq.
  - destruct body as [|b body].
    + now injection Heq.
    + cbn in Heq. injection Heq as <- _. exfalso. apply Hnot. now left.
  - destruct body as [|b body].
    + cbn in Heq. injection Heq as _ Heq. destruct t1; discriminate.
    + cbn in Heq. injection Heq as _ Heq. apply (IH body); [|exact Heq].
      intros Hin. apply Hnot. now right.
Qed.

Lemma script_events_stop (a : ScriptAnswers) :
  exists body, script_events a = body ++ [EvStop] /\ ~ In EvStop body.
Proof.
  exists (removelast (script_events a)). split; [reflexivity|].
  assert (H : forallb (fun e => negb (is_stop e)) (removelast (script_events a)) = true)
    by reflexivity.
  rewrite forallb_forall in H. intros Hin. specialize (H _ Hin). discriminate.
Qed.

(** When the stop call is in the trace it is the last event, the trace is
    the whole of the script's calls, and the run returned. *)
Lemma stopped_run (w : World) :
  In EvStop (trace (snd (run w))) ->
  fst (run w) = Returned tt /\ exists a, trace (snd (run w)) = script_events a.
Proof.
  intros Hin.
  assert (Hlast : exists a, trace (snd (run w)) = script_events a).
  { destruct (run_is_prefix w) as [(conn & H)|(a & rest & H)].
    - rewrite H in Hin. cbn in Hin. intuition discriminate.
    - exists a. destruct (script_events_stop a) as (body & Hbody & Hnot).
      apply in_split in Hin as (t1 & t2 & Ht). rewrite Ht, <- app_assoc in H.
      rewrite Hbody in H. cbn in H. symmetry in H.
      pose proof (stop_last_only _ _ _ _ Hnot H) as Hnil.
      apply app_eq_nil in Hnil as [-> ->]. rewrite Hbody, <- H. exact Ht. }
  split; [|exact Hlast]. destruct Hlast as [a Ha].
  pose proof (run_verdict w) as H. unfold lands in H.
  destruct (run w) as [[[]|msg] s]; cbn [fst snd] in *; [reflexivity|].
  destruct H as (t & e & Ht & _ & Hbad & _).
  destruct (script_events_stop a) as (body & Hbody & _).
  rewrite Ha, Hbody in Ht. apply app_inj_tail in Ht as [_ <-]. discriminate.
Qed.

(** X9: the cluster is stopped exactly in the runs that provisioned it and
    returned, and then as the very last call; a run that throws leaves the
    cluster it provisioned running. *)
Theorem cluster_stopped_iff_run_returned (w : World) :
  (In EvStop (trace (snd (run w))) <->
   fst (run w) = Returned tt /\ provisioned (trace (snd (run w))) <> None) /\
  (In EvStop (trace (snd (run w))) ->
   exists t, trace (snd (run w)) = t ++ [EvStop] /\ ~ In EvStop t) /\
  (forall msg, fst (run w) = Threw msg -> ~ In EvStop (trace (snd (run w)))).
Proof.
  split; [|split].
  - split.
    + intros Hin. destruct (stopped_run w Hin) as [Hret [a Ha]].
      split; [exact Hret|]. rewrite Ha. discriminate.
    + intros [Hret Hprov].
      destruct (passing_run w Hret) as [(conn & Hskip)
        |(conn & st & r1 & r2 & r3 & r4 & a0 & a1 & a2 & a3 & a4 & a5 & p1 & p2 & rset
          & a6 & a7 & a8 & a9 & Htr & _)].
      * rewrite Hskip in Hprov. now contradiction Hprov.
      * rewrite Htr. apply in_or_app. right. unfold after_router_upgrade.
        rewrite !app_assoc. apply in_or_app. right. now left.
  - intros Hin. destruct (stopped_run w Hin) as [_ [a Ha]].
    destruct (script_events_stop a) as (body & Hbody & Hnot).
    exists body. now rewrite Ha.
  - intros msg Hmsg Hin. destruct (stopped_run w Hin) as [Hret _]. congruence.
Qed.

(** X10: a run returns exactly when every answer along it was one the
    script accepts: the set-up commands and the version bump worked, the
    reads before the router upgrade failed with their phase's code, the
    reads after it succeeded or failed with SnapshotTooOld, and the marker
    was the last-stable one before the bump and the latest one after. *)
Theorem run_returns_iff_all_answers_pass (w : World) :
  fst (run w) = Returned tt <-> Passed (trace (snd (run w))).
Proof.
  pose proof (run_verdict w) as H. unfold lands in H.
  destruct (run w) as [[[]|msg] s]; cbn [fst snd] in *.
  - split; [intros _; apply H | reflexivity].
  - split; [discriminate|]. intros HP.
    destruct H as (t & e & Ht & _ & Hbad & _). rewrite Ht in HP.
    apply Passed_snoc in HP as [_ HP]. congruence.
Qed.

(** X11: whatever the reply, the verifier sends its command exactly once
    and leaves the counter alone.  It returns when the reply passes, and
    otherwise throws one of two messages: "unexpected error code" with the
    printed command when success was expected, "command did not fail with
    expected error code" with the printed command and the printed expected
    code when failure was expected.  The message "expected command to
    succeed" is never the one thrown. *)
Theorem verifier_result (w : World) (s : St) (sessionDb : Database) (cmdObj : JSValue)
    (expectSuccess : bool) (expectedCode : option Z) :
  let res := w_runCommand w (trace s) sessionDb cmdObj in
  runCommandAndVerifyResponse sessionDb cmdObj expectSuccess expectedCode w s =
  (if verdict expectSuccess expectedCode res then Returned tt
   else Threw (Some (if expectSuccess
                     then "unexpected error code, cmd: " ++ tojson cmdObj
                     else "command did not fail with expected error code, cmd: " ++
                          tojson cmdObj ++ ", expectedCode: " ++
                          tojson (js_of_code expectedCode))%string),
   {| txnNumber := txnNumber s;
      trace := trace s ++ [EvRunCommand sessionDb cmdObj res] |}).
Proof.
  intros res.
  unfold runCommandAndVerifyResponse, runCommand. rewrite bind_call. fold res.
  unfold verdict, accepted, log_event. destruct expectSuccess.
  - destruct (ok res) eqn:Hok; cbn [negb orb].
    + unfold assert_commandWorked. now rewrite Hok.
    + unfold assert_eq. rewrite (code_eqb_sym (Some SnapshotTooOld)).
      now destruct (code_eqb (code res) (Some SnapshotTooOld)).
  - unfold assert_commandFailedWithCode.
    now destruct (negb (ok res) && code_eqb (code res) expectedCode).
Qed.

(** X12: a battery stops at the first reply its verifier rejects.  With k
    the number of commands it has sent (one to three), the replies to the
    first k-1 all passed, the counter has advanced by k, and the battery
    returned exactly when k is three and the third reply passed too;
    otherwise it threw on the k-th reply, which did not pass. *)
Theorem battery_stops_at_first_rejection (w : World) (s : St) (conn : Conn)
    (expectSuccess : bool) (expectedCode : option Z) :
  let r := verifyGlobalSnapshotReads conn expectSuccess expectedCode w s in
  let v := verdict expectSuccess expectedCode in
  exists (a : BatteryAnswers) (k : nat),
    (1 <= k <= 3)%nat /\
    trace (snd r) = trace s ++ firstn (S k) (battery_trace conn (txnNumber s) a) /\
    txnNumber (snd r) = txnNumber s + Z.of_nat k /\
    forallb v (firstn (k - 1) (replies a)) = true /\
    (fst r = Returned tt <-> k = 3%nat /\ v (b_reply3 a) = true) /\
    (fst r <> Returned tt ->
     (exists msg, fst r = Threw msg) /\ v (nth (k - 1) (replies a) (b_reply1 a)) = false).
Proof.
  intros r v.
  destruct (verifyGlobalSnapshotReads_run w s conn expectSuccess expectedCode)
    as (q1 & q2 & q3 & H). fold r in H. cbv zeta in H. fold v in H.
  exists {| b_session := w_startSession w (trace s) conn noCausalConsistency;
            b_reply1 := q1; b_reply2 := q2; b_reply3 := q3 |}.
  unfold battery_trace, replies. cbn [b_session b_reply1 b_reply2 b_reply3].
  destruct H as [(V1 & (m & Hm & _) & ->)
              |[(V1 & V2 & (m & Hm & _) & ->)
              |[(V1 & V2 & V3 & (m & Hm & _) & ->)
              |(V1 & V2 & V3 & Hm & ->)]]];
    [exists 1%nat | exists 2%nat | exists 3%nat | exists 3%nat];
    rewrite Hm; cbn [trace txnNumber firstn nth Nat.sub forallb];
    rewrite ?V1, ?V2, ?V3; cbn [andb];
    (split; [lia|]); (split; [reflexivity|]); (split; [lia|]); (split; [reflexivity|]);
    split.
  all: try (split; [discriminate | intros [Hk Hv]; first [discriminate | congruence]]).
  all: try (intros _; split; [eauto | reflexivity]).
  - split; [now split | reflexivity].
  - intros Hne. now contradiction Hne.
Qed.

Lemma skipped_run_returns (w : World) (conn : Conn) :
  trace (snd (run w)) = skip_events conn -> fst (run w) = Returned tt.
Proof.
  intros Hskip. pose proof (run_verdict w) as H. unfold lands in H.
  destruct (run w) as [[[]|msg] s]; cbn [fst snd] in *; [reflexivity|].
  destruct H as (t & e & Ht & _ & Hbad & _).
  rewrite Hskip in Ht. change (skip_events conn) with (probe_events conn false ++
    [EvLog "Skipping test since storage engine doesn't support snapshot read concern."]) in Ht.
  apply app_inj_tail in Ht as [_ <-]. discriminate.
Qed.

(** X13: no answer makes the script reorder, repeat or leave out a call.
    The events of a run are the probe and the skip line, and the run
    returned; or they are an initial segment of the script's calls from
    [new ShardingTest] to [st.stop()] in program order, and the run
    returned exactly when the segment is the whole sequence. *)
Theorem run_follows_script_order (w : World) :
  (fst (run w) = Returned tt /\ exists conn, trace (snd (run w)) = skip_events conn) \/
  (exists a rest,
     script_events a = trace (snd (run w)) ++ rest /\
     (fst (run w) = Returned tt <-> rest = [])).
Proof.
  destruct (run_is_prefix w) as [(conn & H)|(a & rest & H)].
  - left. split; [now apply (skipped_run_returns w conn) | eauto].
  - right. exists a, rest. split; [exact H|]. split.
    + intros Hret.
      destruct (passing_run w Hret) as [(conn & Hskip)
        |(conn & st & r1 & r2 & r3 & r4 & a0 & a1 & a2 & a3 & a4 & a5 & p1 & p2 & rset
          & a6 & a7 & a8 & a9 & Htr & _)].
      * rewrite Hskip in H. destruct a. discriminate H.
      * apply (f_equal (@List.length Event)) in H. rewrite Htr in H.
        rewrite length_app in H. destruct rest; [reflexivity|]. cbn in H. lia.
    + intros ->. rewrite app_nil_r in H. apply (stopped_run w).
      rewrite <- H. destruct (script_events_stop a) as (body & -> & _).
      apply in_or_app. right. now left.
Qed.

End Script.

(** ** Sample runs

    The error codes are taken to be 9, 72 and 239, the markers "3.6" and
    "4.0". *)

Local Notation "'sample_run'" := (run 9 72 239 sampleTojson "3.6" "4.0").
Local Notation "'sample_battery'" := (verifyGlobalSnapshotReads 239 sampleTojson).
Local Notation "'sample_verify'" := (runCommandAndVerifyResponse 239 sampleTojson).

(** In the full run against the upgrading cluster, the first read after the
    shards were upgraded (event 32) fails with code 72, and the run goes on;
    the run returns after stopping the cluster, so it has the shape of a run
    that goes all the way. *)
Lemma rejected_before_full_upgrade_witness :
  let t := trace (snd (sample_run upgradingWorld)) in
  let e := EvRunCommand (SessionDb (MkSession 31) "unshardedDb")
             (findUnsharded 12) (replyError 72) in
  (t = firstn 32 t ++ e :: skipn 33 t /\
   phase_at (firstn 32 t) = Some ShardsUpgraded /\
   (skipn 33 t <> [] <-> ok (replyError 72) = false /\ code (replyError 72) = Some 72)) /\
  (fst (sample_run upgradingWorld) = Returned tt /\ In EvStop t /\
   exists conn st r1 r2 r3 r4 a0 a1 a2 a3 a4 a5 rest,
     t = before_router_upgrade conn st r1 r2 r3 r4 a0 a1 a2 a3 a4 a5 ++ rest /\
     battery_replies (rejected_with 9) a0 /\
     battery_replies (rejected_with 9) a1 /\
     battery_replies (rejected_with 9) a2 /\
     battery_replies (rejected_with 9) a3 /\
     battery_replies (rejected_with 72) a4 /\
     battery_replies (rejected_with 72) a5).
Proof.
  intros t e.
  assert (H1 : t = firstn 32 t ++ e :: skipn 33 t) by (vm_compute; reflexivity).
  assert (H2 : phase_at (firstn 32 t) = Some ShardsUpgraded) by (vm_compute; reflexivity).
  assert (H3 : fst (sample_run upgradingWorld) = Returned tt) by (vm_compute; reflexivity).
  assert (H4 : In EvStop t) by (vm_compute; do 62 right; left; reflexivity).
  split.
  - split; [exact H1|]. split; [exact H2|].
    apply (proj1 (rejected_before_full_upgrade 9 72 239 sampleTojson "3.6" "4.0")
             upgradingWorld (firstn 32 t) (skipn 33 t) _ _ _ ShardsUpgraded 72 H1 eq_refl H2).
    right; right; split; reflexivity.
  - split; [exact H3|]. split; [exact H4|].
    exact (proj2 (rejected_before_full_upgrade 9 72 239 sampleTojson "3.6" "4.0")
             upgradingWorld H3 H4).
Defined.

(** In the same run, the first read after the routers were upgraded
    (event 44) succeeds, and the run goes on. *)
Lemma success_or_snapshot_too_old_witness :
  let t := trace (snd (sample_run upgradingWorld)) in
  let e := EvRunCommand (SessionDb (MkSession 43) "unshardedDb")
             (findUnsharded 18) replyOk in
  (t = firstn 44 t ++ e :: skipn 45 t /\
   phase_at (firstn 44 t) = Some RoutersUpgraded /\
   (skipn 45 t <> [] <->
    ok replyOk = true \/ (ok replyOk = false /\ code replyOk = Some 239))) /\
  (fst (sample_run upgradingWorld) = Returned tt /\ In EvStop t /\
   exists before st p1 p2 rset a6 a7 a8 a9,
     t = before ++ after_router_upgrade "3.6" "4.0" st p1 p2 rset a6 a7 a8 a9 /\
     battery_replies (accepted 239) a6 /\ battery_replies (accepted 239) a7 /\
     battery_replies (accepted 239) a8 /\ battery_replies (accepted 239) a9).
Proof.
  intros t e.
  assert (H1 : t = firstn 44 t ++ e :: skipn 45 t) by (vm_compute; reflexivity).
  assert (H2 : phase_at (firstn 44 t) = Some RoutersUpgraded) by (vm_compute; reflexivity).
  assert (H3 : fst (sample_run upgradingWorld) = Returned tt) by (vm_compute; reflexivity).
  assert (H4 : In EvStop t) by (vm_compute; do 62 right; left; reflexivity).
  split.
  - split; [exact H1|]. split; [exact H2|].
    apply (proj1 (proj2 (success_or_snapshot_too_old 9 72 239 sampleTojson "3.6" "4.0"))
             upgradingWorld (firstn 44 t) (skipn 45 t) _ _ _ RoutersUpgraded H1 eq_refl H2).
    left. reflexivity.
  - split; [exact H3|]. split; [exact H4|].
    exact (proj2 (proj2 (success_or_snapshot_too_old 9 72 239 sampleTojson "3.6" "4.0"))
             upgradingWorld H3 H4).
Defined.

(** A cluster that accepts a read the script expects to fail with code 9. *)
Lemma failure_with_expected_code_witness :
  ok (w_runCommand acceptingWorld [] (SessionDb (MkSession 0) "unshardedDb")
        (findUnsharded 0)) = true /\
  exists msg,
    fst (sample_verify (SessionDb (MkSession 0) "unshardedDb") (findUnsharded 0)
           false (Some 9) acceptingWorld init) = Threw msg.
Proof.
  split; [reflexivity|].
  apply (proj1 (proj2 (failure_with_expected_code 239 sampleTojson acceptingWorld init
                         (SessionDb (MkSession 0) "unshardedDb") (findUnsharded 0) 9))).
  reflexivity.
Defined.

(** A battery against the old cluster returns and leaves the counter at 3. *)
Lemma transaction_numbers_never_repeat_witness :
  fst (sample_battery (MkConn 1) false (Some 9) upgradingWorld init) = Returned tt /\
  txnNumber (snd (sample_battery (MkConn 1) false (Some 9) upgradingWorld init)) = 0 + 3.
Proof.
  split; [reflexivity|].
  apply (proj1 (proj2 (transaction_numbers_never_repeat 9 72 239 sampleTojson "3.6" "4.0"))
           upgradingWorld init (MkConn 1) false (Some 9)).
  reflexivity.
Defined.

(** A battery against the old cluster, expecting code 9: every reply is
    the expected failure, so it returns after exactly the three reads; of a
    collection split at x = 0 the second read reaches partition 1 only, the
    third both partitions. *)
Lemma battery_issues_three_reads_witness :
  let r := sample_battery (MkConn 1) false (Some 9) upgradingWorld init in
  let sess := MkSession 0 in
  fst r = Returned tt /\
  trace (snd r) =
    [EvStartSession (MkConn 1) noCausalConsistency sess;
     EvRunCommand (SessionDb sess "unshardedDb") (findUnsharded 0) (replyError 9);
     EvRunCommand (SessionDb sess "shardedDb") (findShardedOneShard 1) (replyError 9);
     EvRunCommand (SessionDb sess "shardedDb") (findShardedAllShards 2) (replyError 9)] /\
  (forall i, targets [0] (findShardedOneShard 1) i <-> i = 1%nat) /\
  targets [0] (findShardedAllShards 2) 0%nat /\
  targets [0] (findShardedAllShards 2) 1%nat.
Proof.
  intros r sess.
  destruct (battery_issues_three_reads 239 sampleTojson upgradingWorld init
              (MkConn 1) false (Some 9))
    as (_ & _ & _ & Htr & Hret & _ & Hone & Hall).
  split; [apply Hret; repeat split; reflexivity|].
  split; [exact Htr|].
  split; [exact (Hone [0])|].
  split; [exact (Hall [0] (-1)) | exact (Hall [0] 1)].
Defined.

(** A battery against a cluster that accepts every command, expecting
    success: it returns, and the trace is the session start on the router
    followed by three commands, all on databases of that session. *)
Lemma battery_uses_its_own_session_witness :
  let r := sample_battery (MkConn 2) true None acceptingWorld init in
  fst r = Returned tt /\
  exists options cmds,
    trace (snd r) = EvStartSession (MkConn 2) options (MkSession 0) :: cmds /\
    get_field "causalConsistency" options = JSBool false /\
    List.length cmds = 3%nat /\
    Forall (fun e => exists name cmdObj res,
                       e = EvRunCommand (SessionDb (MkSession 0) name) cmdObj res) cmds.
Proof.
  intros r.
  destruct (battery_uses_its_own_session 239 sampleTojson acceptingWorld init
              (MkConn 2) true None)
    as (options & sess & cmds & Htr & Hcc & Hsess & Hall & _ & Hlen & Hret & _).
  change (sess = MkSession 0) in Hsess. subst sess.
  split; [apply Hret; repeat split; reflexivity|].
  exists options, cmds.
  split; [exact Htr|]. split; [exact Hcc|].
  split; [apply Hlen; split; reflexivity | exact Hall].
Defined.

(** An unexpected success: the run of the verifier ends with a message that
    contains the printed command, after exactly one command. *)
Lemma mismatch_is_fatal_witness :
  ok (w_runCommand acceptingWorld [] (SessionDb (MkSession 0) "unshardedDb")
        (findUnsharded 0)) = true /\
  exists before after,
    sample_verify (SessionDb (MkSession 0) "unshardedDb") (findUnsharded 0)
      false (Some 9) acceptingWorld init
    = (Threw (Some (before ++ sampleTojson (findUnsharded 0) ++ after)%string),
       {| txnNumber := 0;
          trace := [] ++ [EvRunCommand (SessionDb (MkSession 0) "unshardedDb")
                            (findUnsharded 0) replyOk] |}).
Proof.
  split; [reflexivity|].
  apply (proj1 (mismatch_is_fatal 9 72 239 sampleTojson "3.6" "4.0")
           acceptingWorld init (SessionDb (MkSession 0) "unshardedDb") (findUnsharded 0)
           false (Some 9)).
  left. split; reflexivity.
Defined.

(** The run against the upgrading cluster opens a session (event 11), so
    the scenario of the first read applies to it. *)
Lemma old_version_read_must_fail_to_parse_witness :
  In (EvStartSession (MkConn 1) noCausalConsistency (MkSession 11))
     (trace (snd (sample_run upgradingWorld))) /\
  exists conn st r1 r2 r3 r4 sess cmdObj res rest,
    trace (snd (sample_run upgradingWorld)) =
      setup_events conn st r1 r2 r3 r4 ++
      EvStartSession (st_s0 st) noCausalConsistency sess ::
      EvRunCommand (SessionDb sess "unshardedDb") cmdObj res :: rest /\
    phase_at (setup_events conn st r1 r2 r3 r4) = Some OldVersion /\
    snapshot_find "unsharded" JSUndefined 0 cmdObj /\
    (rest <> [] <-> ok res = false /\ code res = Some 9) /\
    (~ (ok res = false /\ code res = Some 9) ->
     exists msg, fst (sample_run upgradingWorld) = Threw msg).
Proof.
  assert (H : In (EvStartSession (MkConn 1) noCausalConsistency (MkSession 11))
                 (trace (snd (sample_run upgradingWorld)))).
  { vm_compute. do 11 right. left. reflexivity. }
  split; [exact H|].
  apply (old_version_read_must_fail_to_parse 9 72 239 sampleTojson "3.6" "4.0" upgradingWorld).
  exists (MkConn 1), noCausalConsistency, (MkSession 11). exact H.
Defined.

(** On a storage engine without snapshot read concern the run is the probe
    and one log line. *)
Lemma probe_guards_the_run_witness :
  w_supportsSnapshotReadConcern unsupportingWorld [EvRunMongod (MkConn 0)]
    (ConnDb (MkConn 0) "test") = false /\
  sample_run unsupportingWorld =
    (Returned tt,
     {| txnNumber := 0;
        trace := probe_events (MkConn 0) false ++
          [EvLog "Skipping test since storage engine doesn't support snapshot read concern."] |}) /\
  Forall (fun e => cluster_event e = false) (trace (snd (sample_run unsupportingWorld))).
Proof.
  split; [reflexivity|].
  apply (proj2 (probe_guards_the_run 9 72 239 sampleTojson "3.6" "4.0" unsupportingWorld)).
  reflexivity.
Defined.

(** In the run against the upgrading cluster the marker read after the
    router upgrade (event 42) is "3.6", before any compatibility version was
    set; the run goes all the way. *)
Lemma marker_old_until_bumped_witness :
  let t := trace (snd (sample_run upgradingWorld)) in
  (t = firstn 42 t ++ EvGetFCV (ConnDb (MkConn 3) "admin") "3.6" :: skipn 43 t /\
   phase_at (firstn 42 t) = Some RoutersUpgraded /\
   (skipn 43 t <> [] <-> "3.6" = "3.6")) /\
  (fst (sample_run upgradingWorld) = Returned tt /\ In EvStop t /\
   exists before st p1 p2 rset a6 a7 a8 a9,
     t = before ++ after_router_upgrade "3.6" "4.0" st p1 p2 rset a6 a7 a8 a9 /\
     phase_at before = Some ShardsUpgraded /\
     battery_replies (accepted 239) a6 /\ battery_replies (accepted 239) a7 /\
     ok rset = true).
Proof.
  intros t.
  assert (H1 : t = firstn 42 t ++ EvGetFCV (ConnDb (MkConn 3) "admin") "3.6" :: skipn 43 t)
    by (vm_compute; reflexivity).
  assert (H2 : phase_at (firstn 42 t) = Some RoutersUpgraded) by (vm_compute; reflexivity).
  assert (H3 : fst (sample_run upgradingWorld) = Returned tt) by (vm_compute; reflexivity).
  assert (H4 : In EvStop t) by (vm_compute; do 62 right; left; reflexivity).
  split.
  - split; [exact H1|]. split; [exact H2|].
    destruct (proj1 (marker_old_until_bumped 9 72 239 sampleTojson "3.6" "4.0")
                upgradingWorld (firstn 42 t) (skipn 43 t) _ _ H1)
      as [(_ & Hiff & _)|(Hp & _)].
    + exact Hiff.
    + rewrite H2 in Hp. discriminate Hp.
  - split; [exact H3|]. split; [exact H4|].
    exact (proj2 (proj2 (marker_old_until_bumped 9 72 239 sampleTojson "3.6" "4.0"))
             upgradingWorld H3 H4).
Defined.

(** Before the first upgrade call (event 20) the cluster is in OldVersion,
    and the call moves it to the next phase. *)
Lemma phases_only_move_forward_witness :
  let t := trace (snd (sample_run upgradingWorld)) in
  t = firstn 20 t ++ skipn 20 t /\
  exists p, phase_at (firstn 20 t) = Some p /\
    forall e post', skipn 20 t = e :: post' ->
      phase_at (firstn 20 t ++ [e]) = Some p \/
      phase_at (firstn 20 t ++ [e]) = Some (next_phase p).
Proof.
  intros t.
  assert (H : t = firstn 20 t ++ skipn 20 t) by (vm_compute; reflexivity).
  split; [exact H|].
  exact (phases_only_move_forward 9 72 239 sampleTojson "3.6" "4.0" upgradingWorld
           (firstn 20 t) (skipn 20 t) H).
Defined.

(** The second upgrade call (event 30) finds the cluster in
    ConfigsUpgraded, names the shards only, and moves it to ShardsUpgraded. *)
Lemma upgrades_one_group_at_a_time_witness :
  let t := trace (snd (sample_run upgradingWorld)) in
  let options := JSObject [("upgradeConfigs", JSBool false);
                           ("upgradeMongos", JSBool false);
                           ("upgradeShards", JSBool true)] in
  let e := EvUpgradeCluster "latest" options in
  t = firstn 30 t ++ e :: skipn 31 t /\
  phase_at (firstn 30 t) = Some ConfigsUpgraded /\
  phase_at (firstn 30 t ++ [e]) = Some ShardsUpgraded.
Proof.
  intros t options e.
  assert (H : t = firstn 30 t ++ e :: skipn 31 t) by (vm_compute; reflexivity).
  split; [exact H|].
  destruct (upgrades_one_group_at_a_time 9 72 239 sampleTojson "3.6" "4.0" upgradingWorld
              (firstn 30 t) (skipn 31 t) _ _ H)
    as [_ [(_ & Ho & _) | [(Hp & _ & Hq) | (_ & Ho & _)]]].
  - discriminate Ho.
  - split; [exact Hp | exact Hq].
  - discriminate Ho.
Defined.

(** The second session of the run (event 15) is opened on the second
    router. *)
Lemma sessions_alternate_between_routers_witness :
  let t := trace (snd (sample_run upgradingWorld)) in
  t = firstn 15 t ++ EvStartSession (MkConn 2) noCausalConsistency (MkSession 15)
                     :: skipn 16 t /\
  exists st, provisioned (firstn 15 t) = Some st /\
    MkConn 2 = if Nat.even (sessions_opened (firstn 15 t)) then st_s0 st else st_s1 st.
Proof.
  intros t.
  assert (H : t = firstn 15 t ++ EvStartSession (MkConn 2) noCausalConsistency (MkSession 15)
                                 :: skipn 16 t) by (vm_compute; reflexivity).
  split; [exact H|].
  exact (sessions_alternate_between_routers 9 72 239 sampleTojson "3.6" "4.0" upgradingWorld
           (firstn 15 t) (skipn 16 t) _ _ _ H).
Defined.

(** The read at event 32 goes through the session opened at event 31. *)
Lemma commands_take_their_route_witness :
  let t := trace (snd (sample_run upgradingWorld)) in
  let db := SessionDb (MkSession 31) "unshardedDb" in
  t = firstn 32 t ++ EvRunCommand db (findUnsharded 12) (replyError 72) :: skipn 33 t /\
  exists sess, last_session (firstn 32 t) = Some sess /\
    (db = SessionDb sess "unshardedDb" \/ db = SessionDb sess "shardedDb").
Proof.
  intros t db.
  assert (H : t = firstn 32 t ++ EvRunCommand db (findUnsharded 12) (replyError 72)
                                 :: skipn 33 t) by (vm_compute; reflexivity).
  split; [exact H|].
  exact (proj1 (commands_take_their_route 9 72 239 sampleTojson "3.6" "4.0" upgradingWorld
                  (firstn 32 t) (skipn 33 t) _ _ _ H) eq_refl).
Defined.

(** The marker read at event 42 goes through the primary returned at
    event 41. *)
Lemma marker_read_through_fresh_primary_witness :
  let t := trace (snd (sample_run upgradingWorld)) in
  t = firstn 42 t ++ EvGetFCV (ConnDb (MkConn 3) "admin") "3.6" :: skipn 43 t /\
  exists pre' primary,
    firstn 42 t = pre' ++ [EvGetPrimary primary] /\
    ConnDb (MkConn 3) "admin" = ConnDb primary "admin".
Proof.
  intros t.
  assert (H : t = firstn 42 t ++ EvGetFCV (ConnDb (MkConn 3) "admin") "3.6" :: skipn 43 t)
    by (vm_compute; reflexivity).
  split; [exact H|].
  exact (marker_read_through_fresh_primary 9 72 239 sampleTojson "3.6" "4.0" upgradingWorld
           (firstn 42 t) (skipn 43 t) _ _ H).
Defined.

(** The second insert (event 10) comes before any session. *)
Lemma fixture_built_before_reads_witness :
  let t := trace (snd (sample_run upgradingWorld)) in
  t = firstn 10 t ++ nth 10 t EvStop :: skipn 11 t /\
  builds_fixture (nth 10 t EvStop) = true /\
  sessions_opened (firstn 10 t) = 0%nat.
Proof.
  intros t.
  assert (H1 : t = firstn 10 t ++ nth 10 t EvStop :: skipn 11 t) by (vm_compute; reflexivity).
  assert (H2 : builds_fixture (nth 10 t EvStop) = true) by (vm_compute; reflexivity).
  split; [exact H1|]. split; [exact H2|].
  exact (fixture_built_before_reads 9 72 239 sampleTojson "3.6" "4.0" upgradingWorld
           (firstn 10 t) (skipn 11 t) _ H1 H2).
Defined.

(** Against a cluster that refuses every command the run ends at the first
    set-up command (event 4). *)
Lemma failed_fixture_command_stops_the_run_witness :
  let t := trace (snd (sample_run refusingWorld)) in
  let e := EvRunCommand (ConnDb (MkConn 1) "admin")
             (JSObject [("enableSharding", JSString "shardedDb")]) (replyError 1) in
  t = firstn 4 t ++ e :: skipn 5 t /\
  skipn 5 t = [] /\
  (exists msg, fst (sample_run refusingWorld) = Threw msg) /\
  sessions_opened t = 0%nat.
Proof.
  intros t e.
  assert (H : t = firstn 4 t ++ e :: skipn 5 t) by (vm_compute; reflexivity).
  split; [exact H|].
  exact (failed_fixture_command_stops_the_run 9 72 239 sampleTojson "3.6" "4.0" refusingWorld
           (firstn 4 t) (skipn 5 t) _ _ _ H eq_refl eq_refl).
Defined.

(** The read at event 32 is the thirteenth and carries the number 12. *)
Lemma reads_are_numbered_in_order_witness :
  let t := trace (snd (sample_run upgradingWorld)) in
  let db := SessionDb (MkSession 31) "unshardedDb" in
  t = firstn 32 t ++ EvRunCommand db (findUnsharded 12) (replyError 72) :: skipn 33 t /\
  get_field "txnNumber" (findUnsharded 12)
    = NumberLong (Z.of_nat (List.length (txn_ids (firstn 32 t)))).
Proof.
  intros t db.
  assert (H : t = firstn 32 t ++ EvRunCommand db (findUnsharded 12) (replyError 72)
                                 :: skipn 33 t) by (vm_compute; reflexivity).
  split; [exact H|].
  exact (proj1 (reads_are_numbered_in_order 9 72 239 sampleTojson "3.6" "4.0" upgradingWorld
                  (firstn 32 t) (skipn 33 t) _ _ _ H) eq_refl).
Defined.
